(** * SiphogAdapter: the terminal client [test_client/siphog_client.py]

    A shallow embedding of [SmoothSiPhogClient] and of [main], and the
    properties of its record parser, rate estimate, arrival history,
    session loop and command line.

    Conventions of the embedding.
    - A Python [str] is a [string]; its characters are the code points
      below 256, which covers the ASCII wire format of the server.
    - A Python [float] is an IEEE 754 binary64 number, modelled by the
      Standard Library's [spec_float] with [prec = 53] and [emax = 1024].
    - A Python [dict] with string keys is an association list in insertion
      order.
    - [time.time()] is an oracle [clock : nat -> spec_float]: the n-th call
      of the session returns [clock n]; the session carries the number of
      calls made so far.
    - Terminal output is an explicit log of output events; printing never
      fails.
    - A keyboard interrupt is taken to arrive while the loop waits in
      [recv].
    - [int(str)] is CPython's, with the limit on the number of digits at
      its default of 4300. *)

From Stdlib Require Import ZArith NArith List Bool Ascii String Lia.
From Stdlib Require Import Floats.SpecFloat.
From Stdlib Require Floats.PrimFloat Floats.FloatOps.
Import ListNotations.

Local Open Scope string_scope.
Local Open Scope list_scope.

(* ================================================================== *)
(** * Python string operations used by the client *)
(* ================================================================== *)

Module PyStr.

Definition newline : ascii := "010"%char.
Definition comma : ascii := ","%char.

(** [str.isspace] on one character, for code points below 256:
    TAB..CR, FS..US, SPACE, NEL (0x85) and NBSP (0xA0). *)
Definition isspace (c : ascii) : bool :=
  let n := N_of_ascii c in
  ((9 <=? n) && (n <=? 13) || (28 <=? n) && (n <=? 32)
   || (n =? 133) || (n =? 160))%N.

Fixpoint lstrip (s : string) : string :=
  match s with
  | EmptyString => EmptyString
  | String c r => if isspace c then lstrip r else s
  end.

Fixpoint rstrip (s : string) : string :=
  match s with
  | EmptyString => EmptyString
  | String c r =>
      match rstrip r with
      | EmptyString => if isspace c then EmptyString else String c EmptyString
      | r' => String c r'
      end
  end.

(** [s.strip()] *)
Definition strip (s : string) : string := rstrip (lstrip s).

(** No white space at the front. *)
Definition trimmed_left (s : string) : Prop :=
  match s with
  | EmptyString => True
  | String c _ => isspace c = false
  end.

(** [c in s] for a one-character [c]. *)
Fixpoint contains (c : ascii) (s : string) : bool :=
  match s with
  | EmptyString => false
  | String d r => Ascii.eqb d c || contains c r
  end.

(** [s.split(sep)] for a one-character separator: never empty,
    [len = 1 + s.count(sep)]. *)
Fixpoint split (sep : ascii) (s : string) : list string :=
  match s with
  | EmptyString => [EmptyString]
  | String c r =>
      if Ascii.eqb c sep then EmptyString :: split sep r
      else match split sep r with
           | t :: ts => String c t :: ts
           | [] => [String c EmptyString]
           end
  end.

(** [s.split(sep, 1)] when [sep in s]: the text before the first [sep] and
    the text after it.  The client only calls it under the guard
    ['\n' in buffer], where Python returns exactly these two items and the
    unpacking [line, buffer = ...] succeeds. *)
Fixpoint split_once (sep : ascii) (s : string) : string * string :=
  match s with
  | EmptyString => (EmptyString, EmptyString)
  | String c r =>
      if Ascii.eqb c sep then (EmptyString, r)
      else let (a, b) := split_once sep r in (String c a, b)
  end.

(** [sep.join(l)] *)
Fixpoint join (sep : ascii) (l : list string) : string :=
  match l with
  | [] => EmptyString
  | t :: ts =>
      match ts with
      | [] => t
      | _ :: _ => t ++ String sep (join sep ts)
      end
  end.

(** [s.count(c)] *)
Fixpoint count (c : ascii) (s : string) : nat :=
  match s with
  | EmptyString => 0
  | String d r => (if Ascii.eqb d c then 1 else 0) + count c r
  end.

(** Truthiness of a [str]. *)
Definition nonempty (s : string) : bool :=
  match s with EmptyString => false | String _ _ => true end.

End PyStr.

(* ================================================================== *)
(** * Framing: one extraction step of the receive loop *)
(* ================================================================== *)

Module Framing.
Import PyStr.

(** Lines 188-196 of [run]: the candidate line and the new buffer, or
    [None] for the [break]. *)
Definition extract (buffer : string) : option (string * string) :=
  if contains newline buffer then
    Some (split_once newline buffer)
  else
    let parts := split comma buffer in
    if (6 <=? List.length parts)%nat then
      Some (join comma (firstn 6 parts),
            if (6 <? List.length parts)%nat then join comma (skipn 6 parts)
            else EmptyString)
    else None.

(** The guard of the inner [while] (line 187). *)
Definition has_delimiter (buffer : string) : bool :=
  contains newline buffer || contains comma buffer.

(** One turn of the inner [while]: guard, then extraction. *)
Definition extract_step (buffer : string) : option (string * string) :=
  if has_delimiter buffer then extract buffer else None.

End Framing.


(* ================================================================== *)
(** * Python numbers: [float], [float(str)] and [int(str)] *)
(* ================================================================== *)

Module PyNum.
Import PyStr.
Local Open Scope Z_scope.

(** binary64 *)
Definition prec : Z := 53.
Definition emax : Z := 1024.

Definition fzero : spec_float := S754_zero false.

(** The float nearest to [m * 10^e] (ties to even), signed by [neg]: what
    CPython's [strtod] computes for a decimal literal.  Too large a value
    gives an infinity, too small a value a zero. *)
Definition of_decimal (neg : bool) (m e : Z) : spec_float :=
  match m with
  | Z0 => S754_zero neg
  | Zneg _ => S754_nan
  | Zpos _ =>
      if 0 <=? e then
        binary_normalize prec emax (cond_Zopp neg (m * 10 ^ e)) 0 neg
      else
        let '(q, e', l) := SFdiv_core_binary prec emax m 0 (10 ^ (- e)) 0 in
        binary_round_aux prec emax neg q e' l
  end.

(** [float(n)] for a Python [int]; exact when [|n| <= 2^53].  (Python
    raises [OverflowError] beyond the range of a double, where this gives an
    infinity; the counts converted here stay far below.) *)
Definition of_int (n : Z) : spec_float := binary_normalize prec emax n 0 false.

Definition is_finite (x : spec_float) : bool :=
  match x with
  | S754_zero _ | S754_finite _ _ _ => true
  | S754_infinity _ | S754_nan => false
  end.

Definition is_zero (x : spec_float) : bool :=
  match x with S754_zero _ => true | _ => false end.

(** The floats 1.0 and 3.0. *)
Definition fone : spec_float := S754_finite false 4503599627370496 (-52).
Definition fthree : spec_float := S754_finite false 6755399441055744 (-51).

Definition is_valid (x : spec_float) : bool := valid_binary prec emax x.

(** The exact value of a finite float, counted in units of [2^-1074] (the
    least positive binary64): an integer for every valid float. *)
Definition scaled (x : spec_float) : option Z :=
  match x with
  | S754_zero _ => Some 0
  | S754_finite s m e => Some (cond_Zopp s (Zpos m) * 2 ^ (e + 1074))
  | S754_infinity _ | S754_nan => None
  end.

(** [y] is exactly [x + n] as a real number, [x] and [y] finite. *)
Definition exactly_plus (x : spec_float) (n : Z) (y : spec_float) : Prop :=
  is_valid x = true /\ is_valid y = true /\
  exists a, scaled x = Some a /\ scaled y = Some (a + n * 2 ^ 1074).

(** [x - y], [x > y] and the raw quotient on floats. *)
Definition fsub (x y : spec_float) : spec_float := SFsub prec emax x y.
Definition fgt (x y : spec_float) : bool := SFltb y x.
Definition fdiv (x y : spec_float) : spec_float := SFdiv prec emax x y.

(** ** Characters of a numeric literal *)

Definition is_digit (c : ascii) : bool :=
  let n := N_of_ascii c in ((48 <=? n) && (n <=? 57))%N.

Definition digit_value (c : ascii) : Z := Z.of_N (N_of_ascii c) - 48.

Definition to_lower (c : ascii) : ascii :=
  let n := N_of_ascii c in
  if ((65 <=? n) && (n <=? 90))%N then ascii_of_N (n + 32) else c.

Definition underscore : ascii := "_"%char.

(** The underscore rule of numeric literals given as strings: an
    underscore stands only between two digits.  [prev] is the character
    before [s] (NUL at the start).  Returns the text without underscores. *)
Fixpoint drop_underscores (prev : ascii) (s : string) : option string :=
  match s with
  | EmptyString =>
      if Ascii.eqb prev underscore then None else Some EmptyString
  | String c r =>
      if Ascii.eqb c underscore then
        if is_digit prev then drop_underscores c r else None
      else if Ascii.eqb prev underscore && negb (is_digit c) then None
      else option_map (String c) (drop_underscores c r)
  end.

(** The longest prefix of digits, and what follows it. *)
Fixpoint take_digits (s : string) : string * string :=
  match s with
  | EmptyString => (EmptyString, EmptyString)
  | String c r =>
      if is_digit c then let (d, t) := take_digits r in (String c d, t)
      else (EmptyString, s)
  end.

Fixpoint digits_value_from (acc : Z) (ds : string) : Z :=
  match ds with
  | EmptyString => acc
  | String c r => digits_value_from (10 * acc + digit_value c) r
  end.

Definition digits_value (ds : string) : Z := digits_value_from 0 ds.

Definition take_sign (s : string) : bool * string :=
  match s with
  | String c r =>
      if Ascii.eqb c "-" then (true, r)
      else if Ascii.eqb c "+" then (false, r)
      else (false, s)
  | EmptyString => (false, s)
  end.

(** [s] starts with the lower-case word [p], letter case ignored: the rest. *)
Fixpoint drop_word (p s : string) : option string :=
  match p with
  | EmptyString => Some s
  | String a p' =>
      match s with
      | String b s' => if Ascii.eqb a (to_lower b) then drop_word p' s' else None
      | EmptyString => None
      end
  end.

(** ** [float(str)] *)

(** [inf], [infinity] and [nan] in any letter case. *)
Definition parse_inf_or_nan (neg : bool) (s : string)
  : option (spec_float * string) :=
  match drop_word "inf" s with
  | Some r =>
      match drop_word "inity" r with
      | Some r' => Some (S754_infinity neg, r')
      | None => Some (S754_infinity neg, r)
      end
  | None =>
      match drop_word "nan" s with
      | Some r => Some (S754_nan, r)
      | None => None
      end
  end.

(** An exponent part [e[+-]digits]; without digits the [e] is no part of
    the number. *)
Definition parse_exponent (s : string) : Z * string :=
  match s with
  | String c r =>
      if Ascii.eqb (to_lower c) "e" then
        let (eneg, r1) := take_sign r in
        let (ds, r2) := take_digits r1 in
        match ds with
        | EmptyString => (0, s)
        | String _ _ => (cond_Zopp eneg (digits_value ds), r2)
        end
      else (0, s)
  | EmptyString => (0, s)
  end.

(** [digits [. digits] [exponent]] or [. digits [exponent]]. *)
Definition parse_decimal (neg : bool) (s : string)
  : option (spec_float * string) :=
  let (ip, s1) := take_digits s in
  let (fp, s2) :=
    match s1 with
    | String c r => if Ascii.eqb c "." then take_digits r else (EmptyString, s1)
    | EmptyString => (EmptyString, s1)
    end in
  if nonempty ip || nonempty fp then
    let (ex, s3) := parse_exponent s2 in
    Some (of_decimal neg (digits_value (ip ++ fp))
                     (ex - Z.of_nat (String.length fp)), s3)
  else None.

(** [float(s)] for a string: [None] stands for [ValueError]. *)
Definition py_float (s : string) : option spec_float :=
  match drop_underscores Ascii.zero (strip s) with
  | None => None
  | Some t =>
      let (neg, r) := take_sign t in
      let parsed :=
        match parse_inf_or_nan neg r with
        | Some p => Some p
        | None => parse_decimal neg r
        end in
      match parsed with
      | Some (v, EmptyString) => Some v
      | _ => None
      end
  end.

(** ** [int(str)], base 10 *)

Fixpoint all_digits (s : string) : bool :=
  match s with
  | EmptyString => true
  | String c r => is_digit c && all_digits r
  end.

(** The white space [int] skips around a number, for code points below
    256: TAB..CR, SPACE, NEL (0x85) and NBSP (0xA0).  It is not the set of
    [str.strip]: FS..US (0x1C..0x1F) are not skipped. *)
Definition is_int_space (c : ascii) : bool :=
  let n := N_of_ascii c in
  ((9 <=? n) && (n <=? 13) || (n =? 32) || (n =? 133) || (n =? 160))%N.

Fixpoint skip_int_space (s : string) : string :=
  match s with
  | EmptyString => EmptyString
  | String c r => if is_int_space c then skip_int_space r else s
  end.

Fixpoint all_int_space (s : string) : bool :=
  match s with
  | EmptyString => true
  | String c r => is_int_space c && all_int_space r
  end.

(** The digits at the front of [s], single underscores between them
    dropped, and what follows them.  [prev] is the character before [s].
    [None]: two underscores in a row, or an underscore that no digit
    follows. *)
Fixpoint scan_digits (prev : ascii) (s : string) : option (string * string) :=
  match s with
  | EmptyString =>
      if Ascii.eqb prev underscore then None else Some (EmptyString, s)
  | String c r =>
      if Ascii.eqb c underscore then
        if Ascii.eqb prev underscore then None else scan_digits c r
      else if is_digit c then
        match scan_digits c r with
        | Some (ds, rest) => Some (String c ds, rest)
        | None => None
        end
      else if Ascii.eqb prev underscore then None
      else Some (EmptyString, s)
  end.

(** [sys.int_info.default_max_str_digits]: the most digits [int] converts,
    as the interpreter is started by default. *)
Definition max_str_digits : nat := 4300.

(** [int(s)] for a string: [None] stands for [ValueError].  White space is
    skipped, then an optional sign is read, then digits with single
    underscores between them (an underscore may not come first); leading
    zeros are digits like the others.  Nothing but white space may follow,
    there is at least one digit, and there are at most [max_str_digits]. *)
Definition py_int (s : string) : option Z :=
  let (neg, r) := take_sign (skip_int_space s) in
  match r with
  | EmptyString => None
  | String c _ =>
      if Ascii.eqb c underscore then None
      else
        match scan_digits Ascii.zero r with
        | Some (ds, rest) =>
            if nonempty ds
               && (String.length ds <=? max_str_digits)%nat
               && all_int_space rest
            then Some (cond_Zopp neg (digits_value ds))
            else None
        | None => None
        end
  end.

(** How many characters of [s] satisfy [f]. *)
Fixpoint count_chars (f : ascii -> bool) (s : string) : nat :=
  match s with
  | EmptyString => 0
  | String c r => (if f c then 1 else 0) + count_chars f r
  end.

(** The characters a decimal integer given as a string is made of. *)
Definition numeral_char (c : ascii) : bool :=
  is_digit c || Ascii.eqb c underscore || Ascii.eqb c "+"
  || Ascii.eqb c "-" || is_int_space c.

(** A non-empty text of digits only. *)
Definition digit_group (g : string) : bool := nonempty g && all_digits g.

(** The text of a sign: nothing, [+] or [-]. *)
Definition is_sign (t : string) : bool :=
  String.eqb t EmptyString || String.eqb t "+" || String.eqb t "-".

(** [s] is a decimal integer as [int] reads it, of value [v]: white
    space, an optional sign, groups of digits joined by single underscores
    with at most [max_str_digits] digits in all, white space. *)
Definition decimal_numeral (s : string) (v : Z) : Prop :=
  exists pre sign groups post,
    s = (pre ++ sign ++ join underscore groups ++ post)%string
    /\ all_int_space pre = true
    /\ is_sign sign = true
    /\ (0 < List.length groups)%nat
    /\ forallb digit_group groups = true
    /\ all_int_space post = true
    /\ (String.length (String.concat EmptyString groups)
        <= max_str_digits)%nat
    /\ v = cond_Zopp (String.eqb sign "-")
                     (digits_value (String.concat EmptyString groups)).

End PyNum.


(* ================================================================== *)
(** * The client: [SmoothSiPhogClient] and [main] *)
(* ================================================================== *)

Module Client.
Import PyStr PyNum Framing.

(** ** State, output and exceptions *)

(** The parsed record: [dict(zip(self.data_keys, values))]. *)
Definition dict : Type := list (string * spec_float).

Inductive status : Type :=
| Excellent | Good | Slow | ServerDisconnected | ErrorShown.

(** What a dashboard cell is overwritten with; number formatting is kept
    symbolic. *)
Inductive text : Type :=
| TimeOfDay                                   (* datetime.now(), H:M:S.mmm *)
| Server (host : string) (port : Z)           (* host:port *)
| Count (n : nat)                             (* data_count *)
| RateHz (rate : spec_float)                  (* rate, one decimal, Hz *)
| Fixed (decimals : nat) (v : spec_float)     (* width 8, fixed decimals *)
| Status (s : status).

Inductive output : Type :=
| Starting
| InvalidPort (arg : string)
| Connecting
| ConnectedBanner
| ConnectFailed
| Frame                                       (* init_display: clear, layout *)
| Cell (row col : nat) (t : text) (width : nat)   (* update_field *)
| StoppedByUser
| SummaryHeader
| SummaryTotal (n : nat)
| SummaryAverage (hz : spec_float)
| SummaryDuration (seconds : spec_float).

Inductive exn : Type :=
| ZeroDivisionError
| KeyError (key : string)
| TypeError
| SocketTimeout
| SocketFailure
| KeyboardInterrupt.

Inductive result (A : Type) : Type :=
| Ok (a : A)
| Raise (e : exn).
Arguments Ok {A} a.
Arguments Raise {A} e.

(** The attributes of [SmoothSiPhogClient] the code reads or writes.
    ([last_data_time] and [current_data] are never used after [__init__].) *)
Record client : Type := mkClient {
  host : string;
  port : Z;
  has_socket : bool;
  running : bool;
  data_count : nat;
  start_time : option spec_float;
  rate_history : list spec_float;
  display_initialized : bool
}.

(** [__init__] *)
Definition new_client (h : string) (p : Z) : client :=
  mkClient h p false false 0 None [] false.

Definition with_socket (b : bool) (c : client) : client :=
  mkClient c.(host) c.(port) b c.(running) c.(data_count) c.(start_time)
           c.(rate_history) c.(display_initialized).
Definition with_running (b : bool) (c : client) : client :=
  mkClient c.(host) c.(port) c.(has_socket) b c.(data_count) c.(start_time)
           c.(rate_history) c.(display_initialized).
Definition with_data_count (n : nat) (c : client) : client :=
  mkClient c.(host) c.(port) c.(has_socket) c.(running) n c.(start_time)
           c.(rate_history) c.(display_initialized).
Definition with_start_time (t : spec_float) (c : client) : client :=
  mkClient c.(host) c.(port) c.(has_socket) c.(running) c.(data_count) (Some t)
           c.(rate_history) c.(display_initialized).
Definition with_rate_history (h : list spec_float) (c : client) : client :=
  mkClient c.(host) c.(port) c.(has_socket) c.(running) c.(data_count)
           c.(start_time) h c.(display_initialized).
Definition with_display_initialized (b : bool) (c : client) : client :=
  mkClient c.(host) c.(port) c.(has_socket) c.(running) c.(data_count)
           c.(start_time) c.(rate_history) b.

(** The client together with its environment: the number of [time.time()]
    calls made so far and everything printed so far, oldest first. *)
Record world : Type := mkWorld {
  self : client;
  ticks : nat;
  out : list output
}.

Definition is_cell (o : output) : bool :=
  match o with Cell _ _ _ _ => true | _ => false end.

(** The lines of the end-of-session summary. *)
Definition is_summary_line (o : output) : bool :=
  match o with
  | SummaryHeader | SummaryTotal _ | SummaryAverage _ | SummaryDuration _ => true
  | _ => false
  end.

(** ** A state and exception monad: effects persist when a call raises. *)

Definition M (A : Type) : Type := world -> result A * world.

Definition ret {A : Type} (a : A) : M A := fun w => (Ok a, w).
Definition raise {A : Type} (e : exn) : M A := fun w => (Raise e, w).
Definition bind {A B : Type} (m : M A) (k : A -> M B) : M B :=
  fun w => match m w with
           | (Ok a, w') => k a w'
           | (Raise e, w') => (Raise e, w')
           end.
Definition lift {A : Type} (r : result A) : M A := fun w => (r, w).

(** [try: m except e: handler e] *)
Definition try_except {A : Type} (m : M A) (handler : exn -> M A) : M A :=
  fun w => match m w with
           | (Ok a, w') => (Ok a, w')
           | (Raise e, w') => handler e w'
           end.

(** The outcome of [m] as a value, whatever it is. *)
Definition attempt {A : Type} (m : M A) : M (result A) :=
  fun w => let (r, w') := m w in (Ok r, w').

Notation "x <- m ;; k" := (bind m (fun x => k))
  (at level 61, m at next level, right associativity).
Notation "m ;; k" := (bind m (fun _ => k))
  (at level 61, right associativity).

Definition get_self : M client := fun w => (Ok w.(self), w).
Definition modify_self (f : client -> client) : M unit :=
  fun w => (Ok tt, mkWorld (f w.(self)) w.(ticks) w.(out)).
Definition emit (o : output) : M unit :=
  fun w => (Ok tt, mkWorld w.(self) w.(ticks) (w.(out) ++ [o])).

(** [collections.deque(maxlen=50).append]: append on the right, then drop
    the leftmost item when the length exceeds [maxlen]. *)
Definition maxlen : nat := 50.
Definition deque_append {A : Type} (d : list A) (x : A) : list A :=
  let d' := d ++ [x] in
  if (maxlen <? List.length d')%nat then tl d' else d'.

(** [d[key]] *)
Fixpoint getitem (d : dict) (key : string) : result spec_float :=
  match d with
  | [] => Raise (KeyError key)
  | (k, v) :: r => if String.eqb k key then Ok v else getitem r key
  end.

(** [x / y] on floats. *)
Definition truediv (x y : spec_float) : result spec_float :=
  if is_zero y then Raise ZeroDivisionError else Ok (fdiv x y).

(** [max(1, x)] for a float [x], as a float. *)
Definition max_1 (x : spec_float) : spec_float :=
  if fgt x (of_int 1) then x else of_int 1.

(** ** Methods *)

Definition data_keys : list string :=
  [ "SLED_Current (mA)";
    "Photo Current (uA)";
    "SLED_Temp (C)";
    "Target SAG_PWR (V)";
    "SAG_PWR (V)";
    "TEC_Current (mA)" ].

(** [[float(x.strip()) for x in tokens]]; [None] when a [float] call raises. *)
Fixpoint parse_values (tokens : list string) : option (list spec_float) :=
  match tokens with
  | [] => Some []
  | t :: ts =>
      match py_float (strip t) with
      | None => None
      | Some v => option_map (cons v) (parse_values ts)
      end
  end.

(** [parse_data]: the record, or [None]. *)
Definition parse_data (data_str : string) : option dict :=
  let clean_data := strip data_str in
  if negb (nonempty clean_data) then None
  else
    match parse_values (split comma clean_data) with
    | None => None
    | Some values =>
        if (List.length values =? 6)%nat then Some (combine data_keys values)
        else None
    end.

(** [calculate_rate], as a function of [self.rate_history].  (The two
    index reads stand under the guard on the length, where they cannot
    fail.) *)
Definition calculate_rate (rate_history : list spec_float) : result spec_float :=
  if (List.length rate_history <? 2)%nat then Ok fzero
  else
    let time_span := fsub (last rate_history fzero) (hd fzero rate_history) in
    if fgt time_span (of_int 0) then
      truediv (of_int (Z.of_nat (List.length rate_history) - 1)) time_span
    else Ok fzero.

Section Session.

(** [time.time()]: the n-th call returns [clock n]. *)
Variable clock : nat -> spec_float.

Definition time_time : M spec_float :=
  fun w => (Ok (clock w.(ticks)), mkWorld w.(self) (S w.(ticks)) w.(out)).

Definition connect (reachable : bool) : M bool :=
  modify_self (with_socket true) ;;
  emit Connecting ;;
  if reachable then emit ConnectedBanner ;; ret true
  else emit ConnectFailed ;; ret false.

Definition disconnect : M unit :=
  modify_self (with_running false) ;;
  modify_self (with_socket false).

Definition init_display : M unit :=
  c <- get_self ;;
  if c.(display_initialized) then ret tt
  else emit Frame ;; modify_self (with_display_initialized true).

Definition update_field (row col : nat) (t : text) (width : nat) : M unit :=
  emit (Cell row col t width).

Definition update_display (data : dict) : M unit :=
  modify_self (fun c => with_data_count (S c.(data_count)) c) ;;
  current_time <- time_time ;;
  modify_self (fun c =>
    with_rate_history (deque_append c.(rate_history) current_time) c) ;;
  c <- get_self ;;
  rate <- lift (calculate_rate c.(rate_history)) ;;
  update_field 4 8 TimeOfDay 25 ;;
  update_field 5 10 (Server c.(host) c.(port)) 25 ;;
  update_field 6 12 (Count c.(data_count)) 15 ;;
  update_field 6 35 (RateHz rate) 15 ;;
  v <- lift (getitem data "SLED_Current (mA)") ;;
  update_field 9 18 (Fixed 2 v) 15 ;;
  v <- lift (getitem data "SLED_Temp (C)") ;;
  update_field 10 15 (Fixed 2 v) 15 ;;
  v <- lift (getitem data "TEC_Current (mA)") ;;
  update_field 11 17 (Fixed 2 v) 15 ;;
  v <- lift (getitem data "Photo Current (uA)") ;;
  update_field 14 19 (Fixed 2 v) 15 ;;
  v <- lift (getitem data "SAG_PWR (V)") ;;
  update_field 15 15 (Fixed 4 v) 15 ;;
  v <- lift (getitem data "Target SAG_PWR (V)") ;;
  update_field 16 19 (Fixed 4 v) 15 ;;
  let status :=
    if fgt rate (of_int 30) then Excellent
    else if fgt rate (of_int 10) then Good
    else Slow in
  update_field 18 16 (Status status) 20.

(** Lines 198-202 of [run]: what is done with one candidate line. *)
Definition handle_line (line : string) : M unit :=
  let line := strip line in
  if nonempty line && contains comma line then
    match parse_data line with
    | Some ((_ :: _) as parsed_data) => update_display parsed_data
    | Some [] | None => ret tt
    end
  else ret tt.

(** The record a candidate line gives rise to, if any: the decision
    [handle_line] takes, without its effect. *)
Definition accepted (line : string) : option dict :=
  let line := strip line in
  if nonempty line && contains comma line then
    match parse_data line with
    | Some ((_ :: _) as parsed_data) => Some parsed_data
    | Some [] | None => None
    end
  else None.

(** The inner [while] of [run] (lines 187-202); returns the buffer it
    leaves.  Every turn shortens the buffer, so [fuel] above its length is
    never exhausted. *)
Fixpoint process_messages (fuel : nat) (buffer : string) : M string :=
  match fuel with
  | O => ret buffer
  | S fuel' =>
      match extract_step buffer with
      | None => ret buffer
      | Some (line, buffer') =>
          handle_line line ;;
          process_messages fuel' buffer'
      end
  end.

(** The world after [update_display data]. *)
Definition shown (data : dict) (w : world) : world :=
  snd (update_display data w).

(** The records the inner [while] accepts from [buffer], in order, and the
    buffer it leaves: [process_messages] without its effects. *)
Fixpoint parse_buffer (fuel : nat) (buffer : string) : list dict * string :=
  match fuel with
  | O => ([], buffer)
  | S fuel' =>
      match extract_step buffer with
      | None => ([], buffer)
      | Some (line, buffer') =>
          let (ds, left) := parse_buffer fuel' buffer' in
          (match accepted line with Some d => d :: ds | None => ds end, left)
      end
  end.

Definition records (buffer : string) : list dict * string :=
  parse_buffer (S (String.length buffer)) buffer.

(** What [self.socket.recv(1024)] followed by [decode] gives in one turn of
    the session loop. *)
Inductive recv_event : Type :=
| Data (text : string)      (* the decoded bytes; empty when the peer closed *)
| TimedOut                  (* socket.timeout *)
| Failed                    (* any other Exception of recv or decode *)
| Interrupted.              (* KeyboardInterrupt while waiting *)

Definition recv (ev : recv_event) : M string :=
  match ev with
  | Data d => ret d
  | TimedOut => raise SocketTimeout
  | Failed => raise SocketFailure
  | Interrupted => raise KeyboardInterrupt
  end.

Inductive flow : Type :=
| Continue (buffer : string)
| Break.

(** One turn of [while self.running] (lines 176-208). *)
Definition iteration (ev : recv_event) (buffer : string) : M flow :=
  try_except
    (data <- recv ev ;;
     if negb (nonempty data) then
       update_field 18 16 (Status ServerDisconnected) 20 ;;
       ret Break
     else
       let buffer := (buffer ++ data)%string in
       buffer' <- process_messages (S (String.length buffer)) buffer ;;
       ret (Continue buffer'))
    (fun e =>
       match e with
       | SocketTimeout => ret (Continue buffer)
       | KeyboardInterrupt => raise e
       | _ => update_field 18 16 (Status ErrorShown) 20 ;; ret Break
       end).

(** The loop [while self.running] over the events the socket delivers:
    [Some buffer] when the events run out with the loop still going,
    [None] when the loop was left. *)
Fixpoint stream (events : list recv_event) (buffer : string)
  : M (option string) :=
  match events with
  | [] => c <- get_self ;; ret (if c.(running) then Some buffer else None)
  | ev :: rest =>
      c <- get_self ;;
      if c.(running) then
        f <- iteration ev buffer ;;
        match f with
        | Break => ret None
        | Continue buffer' => stream rest buffer'
        end
      else ret None
  end.

(** The [finally] block of [run]. *)
Definition summary : M unit :=
  emit SummaryHeader ;;
  c <- get_self ;;
  emit (SummaryTotal c.(data_count)) ;;
  now1 <- time_time ;;
  started <- lift (match c.(start_time) with
                   | Some t => Ok t | None => Raise TypeError end) ;;
  hz <- lift (truediv (of_int (Z.of_nat c.(data_count)))
                      (max_1 (fsub now1 started))) ;;
  emit (SummaryAverage hz) ;;
  now2 <- time_time ;;
  emit (SummaryDuration (fsub now2 started)) ;;
  disconnect.

Inductive session_end : Type :=
| NotConnected                    (* connect failed: run returned at once *)
| StillStreaming (buffer : string)    (* the events ran out *)
| Terminated.                     (* the loop was left and the summary printed *)

(** [run] *)
Definition run (reachable : bool) (events : list recv_event) : M session_end :=
  ok <- connect reachable ;;
  if negb ok then ret NotConnected
  else
    modify_self (with_running true) ;;
    t0 <- time_time ;;
    modify_self (with_start_time t0) ;;
    init_display ;;
    r <- attempt (stream events EmptyString) ;;
    match r with
    | Ok (Some buffer) => ret (StillStreaming buffer)
    | Ok None => summary ;; ret Terminated
    | Raise KeyboardInterrupt =>
        emit StoppedByUser ;; summary ;; ret Terminated
    | Raise e => summary ;; raise e
    end.

(** ** [main] *)

Inductive main_end : Type :=
| SysExit (code : Z) (printed : list output)
| Ran (r : result session_end) (w : world).

(** [client = SmoothSiPhogClient(host, port); client.run()], after the
    banner [main] prints first. *)
Definition start_client (reachable : bool) (events : list recv_event)
    (host : string) (port : Z) : main_end :=
  let (r, w) :=
    run reachable events (mkWorld (new_client host port) 0 [Starting]) in
  Ran r w.

(** [main], with [argv = sys.argv]. *)
Definition main (argv : list string) (reachable : bool)
    (events : list recv_event) : main_end :=
  let host := "127.0.0.1" in
  let port := 65432%Z in
  let host := if (2 <=? List.length argv)%nat then nth 1 argv host else host in
  if (3 <=? List.length argv)%nat then
    match py_int (nth 2 argv EmptyString) with
    | Some port => start_client reachable events host port
    | None => SysExit 1 [Starting; InvalidPort (nth 2 argv EmptyString)]
    end
  else start_client reachable events host port.

End Session.

(** The last [k] items of a list. *)
Definition lastn {A : Type} (k : nat) (l : list A) : list A :=
  skipn (List.length l - k) l.

(** A receive that keeps the session going: data that is not empty, or a
    timeout. *)
Definition keeps_streaming (ev : recv_event) : bool :=
  match ev with
  | Data d => nonempty d
  | TimedOut => true
  | Failed | Interrupted => false
  end.

(** How many times the summary was started in an output log. *)
Definition summaries (o : list output) : nat :=
  List.length
    (filter (fun x => match x with SummaryHeader => true | _ => false end) o).

End Client.


(* ================================================================== *)
(** * The examples the specification names *)
(* ================================================================== *)

Module Sample.
Import PyStr Client.
Import PrimFloat FloatOps.

(** The input of the specification's parsing example, and the record it
    names, with the kernel's binary64 literals as the expected values. *)
Definition sample_line : string := "10.5,2.3,25.0,1.500,1.480,50.2".
Definition sample_stream : string :=
  (sample_line ++ String newline EmptyString)%string.

#[local] Set Warnings "-inexact-float".
Definition sample_record : dict :=
  [ ("SLED_Current (mA)", Prim2SF 10.5%float);
    ("Photo Current (uA)", Prim2SF 2.3%float);
    ("SLED_Temp (C)", Prim2SF 25.0%float);
    ("Target SAG_PWR (V)", Prim2SF 1.500%float);
    ("SAG_PWR (V)", Prim2SF 1.480%float);
    ("TEC_Current (mA)", Prim2SF 50.2%float) ].
#[local] Set Warnings "+inexact-float".

(** The two receive chunks of the specification's split-input example. *)
Definition chunk1 : string := "10.5,2.3,25.0,1.5".
Definition chunk2 : string :=
  ("00,1.480,50.2" ++ String newline EmptyString)%string.

End Sample.

(* ================================================================== *)
(** * The specification's wording, for comparison with the code *)
(* ================================================================== *)

Module Spec.
Import PyStr PyNum Client.

(** The rate as the specification words it: 0.0 below two samples,
    otherwise (count - 1) / (newest - oldest), with no further case. *)
Definition rate_as_specified (rate_history : list spec_float)
  : result spec_float :=
  if (List.length rate_history <? 2)%nat then Ok fzero
  else truediv (of_int (Z.of_nat (List.length rate_history) - 1))
               (fsub (last rate_history fzero) (hd fzero rate_history)).

(** A token parses as a floating-point number; with [finite_only], as a
    finite one. *)
Definition parses (finite_only : bool) (token : string) : Prop :=
  exists v, py_float (strip token) = Some v
            /\ (finite_only = true -> is_finite v = true).

(** The condition on a candidate line: after trimming it is non-empty, has
    a comma, and splits into exactly six comma-separated tokens that all
    parse. *)
Definition well_formed (finite_only : bool) (line : string) : Prop :=
  let l := strip line in
  l <> EmptyString
  /\ contains comma l = true
  /\ List.length (split comma l) = 6%nat
  /\ Forall (parses finite_only) (split comma l).

End Spec.


(* ================================================================== *)
(** * Invariants of a session *)
(* ================================================================== *)

Module Invariants.
Import Client.

(** The arrival timestamps of the first [n] records.  Call 0 of
    [time.time()] sets [start_time]; the k-th record is stamped by call k. *)
Definition arrivals (clock : nat -> spec_float) (n : nat) : list spec_float :=
  map clock (seq 1 n).

(** The history holds the last [maxlen] arrival timestamps, in order. *)
Definition history_ok (clock : nat -> spec_float) (w : world) : Prop :=
  ticks w = S (data_count (self w))
  /\ rate_history (self w) = lastn maxlen (arrivals clock (data_count (self w))).

(** [w] is [w0] after some streaming: the same connection, perhaps more
    records, and only dashboard cells printed in between. *)
Definition streamed (w0 w : world) : Prop :=
  host (self w) = host (self w0)
  /\ port (self w) = port (self w0)
  /\ has_socket (self w) = has_socket (self w0)
  /\ running (self w) = running (self w0)
  /\ start_time (self w) = start_time (self w0)
  /\ display_initialized (self w) = display_initialized (self w0)
  /\ data_count (self w0) <= data_count (self w)
  /\ exists cells, out w = out w0 ++ cells /\ forallb is_cell cells = true.

(** The world [run] starts streaming in, for a fresh client. *)
Definition streaming_start (clock : nat -> spec_float) (h : string) (p : Z)
  : world :=
  mkWorld (mkClient h p true true 0 (Some (clock 0)) [] true) 1
          [Connecting; ConnectedBanner; Frame].

End Invariants.

(* ================================================================== *)
(** * Streams, groups and counters used to state further properties *)
(* ================================================================== *)

Module Coverage.
Import PyStr PyNum Framing Client.

(** The text of a stream of lines, each ended by a newline. *)
Fixpoint lines_stream (ls : list string) : string :=
  match ls with
  | [] => EmptyString
  | l :: r => (l ++ String newline (lines_stream r))%string
  end.

(** The records of the lines that are accepted, in order. *)
Fixpoint accepted_all (ls : list string) : list dict :=
  match ls with
  | [] => []
  | l :: r =>
      match accepted l with
      | Some d => d :: accepted_all r
      | None => accepted_all r
      end
  end.

(** A buffer the inner loop leaves alone: no newline, fewer than six
    comma-separated tokens. *)
Definition pending (buffer : string) : Prop :=
  contains newline buffer = false
  /\ (List.length (split comma buffer) < 6)%nat.

(** Tokens cut into groups of six from the left, and the fewer than six
    tokens left over. *)
Fixpoint groups_of_six (fuel : nat) (tokens : list string)
  : list (list string) * list string :=
  match fuel with
  | O => ([], tokens)
  | S fuel' =>
      if (6 <=? List.length tokens)%nat then
        let (gs, left) := groups_of_six fuel' (skipn 6 tokens) in
        (firstn 6 tokens :: gs, left)
      else ([], tokens)
  end.

(** A text of white space only. *)
Fixpoint all_space (s : string) : bool :=
  match s with
  | EmptyString => true
  | String c r => isspace c && all_space r
  end.

(** A float with a clear sign bit that is not a NaN. *)
Definition nonneg_number (x : spec_float) : bool :=
  match x with
  | S754_zero false | S754_finite false _ _ | S754_infinity false => true
  | _ => false
  end.

(** The records found in the data of a sequence of receives, chunk after
    chunk, and the buffer left: the session loop without its effects, for
    receives that keep the session going. *)
Fixpoint feed (events : list recv_event) (buffer : string)
  : list dict * string :=
  match events with
  | [] => ([], buffer)
  | Data d :: rest =>
      let (ds, left) := records (buffer ++ d) in
      let (ds', left') := feed rest left in
      (ds ++ ds', left')
  | _ :: rest => feed rest buffer
  end.

Definition is_timeout (ev : recv_event) : bool :=
  match ev with TimedOut => true | _ => false end.

(** The receives with the timeouts left out. *)
Definition without_timeouts (events : list recv_event) : list recv_event :=
  filter (fun ev => negb (is_timeout ev)) events.

(** How many times the dashboard frame was drawn in an output log. *)
Definition frames (o : list output) : nat :=
  List.length (filter (fun x => match x with Frame => true | _ => false end) o).

(** The status shown for a rate (lines 153-158). *)
Definition status_of (rate : spec_float) : status :=
  if fgt rate (of_int 30) then Excellent
  else if fgt rate (of_int 10) then Good
  else Slow.

(** The eleven cells [update_display] overwrites, in the order it writes
    them, for a client [c] showing a record of six values. *)
Definition dashboard_cells (c : client) (rate : spec_float)
    (sled photo temp target sag tec : spec_float) : list output :=
  [ Cell 4 8 TimeOfDay 25;
    Cell 5 10 (Server (host c) (port c)) 25;
    Cell 6 12 (Count (data_count c)) 15;
    Cell 6 35 (RateHz rate) 15;
    Cell 9 18 (Fixed 2 sled) 15;
    Cell 10 15 (Fixed 2 temp) 15;
    Cell 11 17 (Fixed 2 tec) 15;
    Cell 14 19 (Fixed 2 photo) 15;
    Cell 15 15 (Fixed 4 sag) 15;
    Cell 16 19 (Fixed 4 target) 15;
    Cell 18 16 (Status (status_of rate)) 20 ].

(** The world in which [run] enters its loop once connected (lines
    164-172), from any world it is called in. *)
Definition loop_entry (clock : nat -> spec_float) (w : world) : world :=
  let c := with_start_time (clock (ticks w))
             (with_running true (with_socket true (self w))) in
  if display_initialized (self w) then
    mkWorld c (S (ticks w)) (out w ++ [Connecting; ConnectedBanner])
  else
    mkWorld (with_display_initialized true c) (S (ticks w))
            (out w ++ [Connecting; ConnectedBanner; Frame]).

(** What [run] does once its loop is over (lines 210-219), by the way the
    loop ended. *)
Definition loop_exit (clock : nat -> spec_float)
    (r : result (option string)) : M session_end :=
  match r with
  | Ok (Some buffer) => ret (StillStreaming buffer)
  | Ok None => summary clock ;; ret Terminated
  | Raise KeyboardInterrupt =>
      emit StoppedByUser ;; summary clock ;; ret Terminated
  | Raise e => summary clock ;; raise e
  end.

End Coverage.

(* ================================================================== *)
(** * Facts about the string operations *)
(* ================================================================== *)

Module PyStrFacts.
Import PyStr.

Lemma split_nonnil sep s : split sep s <> [].
Proof.
  destruct s as [|c r]; simpl; [discriminate|].
  destruct (Ascii.eqb c sep); [discriminate|].
  destruct (split sep r); discriminate.
Qed.

Lemma split_length sep s : List.length (split sep s) = S (count sep s).
Proof.
  induction s as [|c r IH]; simpl; [reflexivity|].
  destruct (Ascii.eqb c sep); simpl; [now rewrite IH|].
  destruct (split sep r) eqn:E; simpl in *; [discriminate|exact IH].
Qed.

Lemma contains_false_split sep s : contains sep s = false -> split sep s = [s].
Proof.
  induction s as [|c r IH]; simpl; [reflexivity|].
  destruct (Ascii.eqb c sep); simpl; [discriminate|].
  intros H. now rewrite (IH H).
Qed.

Lemma count_app c s t : count c (s ++ t) = count c s + count c t.
Proof.
  induction s as [|d r IH]; simpl; [reflexivity|]. rewrite IH. lia.
Qed.

Lemma string_length_app s t :
  String.length (s ++ t) = String.length s + String.length t.
Proof. induction s as [|d r IH]; simpl; [reflexivity|now rewrite IH]. Qed.

Lemma string_app_assoc s t u : ((s ++ t) ++ u)%string = (s ++ (t ++ u))%string.
Proof. induction s as [|d r IH]; simpl; [reflexivity|now rewrite IH]. Qed.

(** Joining the tokens of a split gives the text back. *)
Lemma join_split sep s : join sep (split sep s) = s.
Proof.
  induction s as [|c r IH]; simpl; [reflexivity|].
  destruct (Ascii.eqb c sep) eqn:E.
  - apply Ascii.eqb_eq in E. subst c.
    destruct (split sep r) eqn:S; [now destruct (split_nonnil sep r)|].
    cbn [join]. cbn [join] in IH. rewrite IH. reflexivity.
  - destruct (split sep r) as [|t ts] eqn:S; [now destruct (split_nonnil sep r)|].
    cbn [join] in *. destruct ts; simpl; now rewrite <- IH.
Qed.

(** The tokens of a split hold no separator. *)
Lemma split_tokens sep s :
  Forall (fun t => contains sep t = false) (split sep s).
Proof.
  induction s as [|c r IH]; simpl; [now repeat constructor|].
  destruct (Ascii.eqb c sep) eqn:E; [now constructor|].
  destruct (split sep r) as [|t ts]; [repeat constructor; simpl; now rewrite E|].
  inversion IH; subst. constructor; [simpl; now rewrite E|assumption].
Qed.

Lemma split_app_token sep t s :
  contains sep t = false ->
  split sep (t ++ String sep s) = t :: split sep s.
Proof.
  induction t as [|c r IH]; simpl; intros H.
  - now rewrite Ascii.eqb_refl.
  - destruct (Ascii.eqb c sep); [discriminate|]. simpl in H. now rewrite (IH H).
Qed.

(** Splitting a join of separator-free tokens gives the tokens back. *)
Lemma split_join sep l :
  l <> [] -> Forall (fun t => contains sep t = false) l ->
  split sep (join sep l) = l.
Proof.
  induction l as [|t ts IH]; [congruence|]. intros _ H.
  inversion H as [|? ? Ht Hts]; subst.
  destruct ts as [|u us]; cbn [join].
  - now apply contains_false_split.
  - rewrite (split_app_token _ _ _ Ht). f_equal. apply IH; [discriminate|assumption].
Qed.

Lemma join_app sep l1 l2 :
  l1 <> [] -> l2 <> [] ->
  join sep (l1 ++ l2) = (join sep l1 ++ String sep (join sep l2))%string.
Proof.
  induction l1 as [|t ts IH]; [congruence|]. intros _ H2.
  destruct ts as [|u us].
  - destruct l2; [congruence|]. reflexivity.
  - change (join sep ((t :: u :: us) ++ l2))
      with (t ++ String sep (join sep ((u :: us) ++ l2)))%string.
    rewrite IH by (discriminate || assumption).
    change (join sep (t :: u :: us))
      with (t ++ String sep (join sep (u :: us)))%string.
    now rewrite string_app_assoc.
Qed.

(** [split_once] cuts at the first separator. *)
Lemma split_once_spec sep s :
  contains sep s = true ->
  s = (fst (split_once sep s) ++ String sep (snd (split_once sep s)))%string
  /\ contains sep (fst (split_once sep s)) = false.
Proof.
  induction s as [|c r IH]; simpl; [discriminate|].
  destruct (Ascii.eqb c sep) eqn:E; simpl.
  - intros _. apply Ascii.eqb_eq in E. now subst.
  - intros H. destruct (IH H) as [H1 H2].
    destruct (split_once sep r) as [a b]; simpl in *.
    rewrite E. split; [now rewrite <- H1|assumption].
Qed.

End PyStrFacts.

(* ================================================================== *)
(** * Framing (lines 187-196) *)
(* ================================================================== *)

Module FramingFacts.
Import PyStr PyStrFacts Framing.

Lemma extract_step_newline buffer :
  contains newline buffer = true ->
  extract_step buffer = Some (split_once newline buffer).
Proof.
  intros H. unfold extract_step, has_delimiter, extract. now rewrite H.
Qed.

Lemma extract_step_commas buffer :
  contains newline buffer = false ->
  extract_step buffer =
    if (6 <=? List.length (split comma buffer))%nat then
      Some (join comma (firstn 6 (split comma buffer)),
            join comma (skipn 6 (split comma buffer)))
    else None.
Proof.
  intros H. unfold extract_step, has_delimiter, extract. rewrite H. cbn [orb].
  destruct (contains comma buffer) eqn:C.
  - destruct (6 <=? List.length (split comma buffer))%nat eqn:L6; [|reflexivity].
    destruct (6 <? List.length (split comma buffer))%nat eqn:L7; [reflexivity|].
    apply Nat.leb_le in L6. apply Nat.ltb_ge in L7.
    rewrite skipn_all2 by lia. reflexivity.
  - rewrite (contains_false_split _ _ C). reflexivity.
Qed.

(** An extraction consumes exactly the candidate and its delimiter. *)
Lemma extract_step_consumes buffer line rest :
  extract_step buffer = Some (line, rest) ->
  buffer = (line ++ String newline rest)%string
  \/ buffer = (line ++ String comma rest)%string
  \/ (buffer = line /\ rest = EmptyString /\ buffer <> EmptyString).
Proof.
  destruct (contains newline buffer) eqn:N.
  - rewrite (extract_step_newline _ N). intros E.
    destruct (split_once_spec _ _ N) as [H _].
    assert (P : split_once newline buffer = (line, rest)) by congruence.
    rewrite P in H. left. exact H.
  - rewrite (extract_step_commas _ N).
    destruct (6 <=? List.length (split comma buffer))%nat eqn:L6;
      [|discriminate].
    apply Nat.leb_le in L6. intros E.
    assert (L : join comma (firstn 6 (split comma buffer)) = line)
      by congruence.
    assert (R : join comma (skipn 6 (split comma buffer)) = rest)
      by congruence.
    clear E. right.
    destruct (skipn 6 (split comma buffer)) as [|t ts] eqn:S.
    + right. simpl in R. subst rest.
      assert (F : firstn 6 (split comma buffer) = split comma buffer).
      { rewrite <- (firstn_skipn 6 (split comma buffer)) at 2.
        rewrite S. now rewrite app_nil_r. }
      rewrite F, join_split in L. repeat split; [congruence|].
      intros ->. simpl in L6. lia.
    + left. rewrite <- L, <- R.
      rewrite <- join_app.
      * rewrite <- S, firstn_skipn. symmetry. apply join_split.
      * intros F. apply (f_equal (@List.length _)) in F.
        rewrite length_firstn in F. cbn [List.length] in F. lia.
      * discriminate.
Qed.

Lemma extract_step_shortens buffer line rest :
  extract_step buffer = Some (line, rest) ->
  String.length rest < String.length buffer.
Proof.
  intros E. destruct (extract_step_consumes _ _ _ E) as [H|[H|(H & R & NE)]].
  - rewrite H, string_length_app. simpl. lia.
  - rewrite H, string_length_app. simpl. lia.
  - subst rest. destruct buffer; [congruence|simpl; lia].
Qed.

Lemma extract_step_commas_le buffer line rest :
  extract_step buffer = Some (line, rest) ->
  count comma line <= count comma buffer
  /\ count comma rest <= count comma buffer.
Proof.
  intros E. destruct (extract_step_consumes _ _ _ E) as [H|[H|(H & R & NE)]].
  - rewrite H, count_app. simpl. lia.
  - rewrite H, count_app. simpl. lia.
  - subst. simpl. lia.
Qed.

(** C1. One extraction step of the receive loop.  With a newline in the
    buffer, the candidate is the text before the first newline and the new
    buffer is the text after it.  Without a newline and with at least six
    comma-separated tokens, the candidate is the first six tokens joined by
    commas and the new buffer is all the remaining tokens (the seventh and
    later) joined by commas, so candidate and new buffer hold exactly the
    tokens of the old buffer.  Without a newline and with fewer than six
    tokens nothing is extracted. *)
Theorem extract_step_framing (buffer : string) :
  (contains newline buffer = true ->
   exists line rest,
     extract_step buffer = Some (line, rest)
     /\ buffer = (line ++ String newline rest)%string
     /\ contains newline line = false)
  /\ (contains newline buffer = false ->
      (6 <= List.length (split comma buffer))%nat ->
      let parts := split comma buffer in
      extract_step buffer
        = Some (join comma (firstn 6 parts), join comma (skipn 6 parts))
      /\ split comma (join comma (firstn 6 parts)) = firstn 6 parts
      /\ ((6 < List.length parts)%nat ->
          split comma (join comma (skipn 6 parts)) = skipn 6 parts)
      /\ ((6 = List.length parts)%nat ->
          join comma (skipn 6 parts) = EmptyString))
  /\ (contains newline buffer = false ->
      (List.length (split comma buffer) < 6)%nat ->
      extract_step buffer = None).
Proof.
  split; [|split].
  - intros H. destruct (split_once_spec _ _ H) as [E N].
    exists (fst (split_once newline buffer)), (snd (split_once newline buffer)).
    rewrite <- surjective_pairing. auto using extract_step_newline.
  - intros H L parts. subst parts. rewrite (extract_step_commas _ H).
    pose proof (split_tokens comma buffer) as T.
    repeat split.
    + apply Nat.leb_le in L. now rewrite L.
    + apply split_join.
      * intros E. apply (f_equal (@List.length _)) in E.
        rewrite length_firstn in E. cbn [List.length] in E. lia.
      * rewrite <- (firstn_skipn 6 (split comma buffer)) in T.
        now apply Forall_app in T.
    + intros L7. apply split_join.
      * intros E. apply (f_equal (@List.length _)) in E.
        rewrite length_skipn in E. cbn [List.length] in E. lia.
      * rewrite <- (firstn_skipn 6 (split comma buffer)) in T.
        now apply Forall_app in T.
    + intros L6. rewrite skipn_all2 by lia. reflexivity.
  - intros H L. rewrite (extract_step_commas _ H).
    apply Nat.leb_gt in L. now rewrite L.
Qed.

(** The theorem at the buffer [1,2,3,4,5,6,7,8]. *)
Lemma extract_step_framing_witness :
  extract_step "1,2,3,4,5,6,7,8" = Some ("1,2,3,4,5,6", "7,8").
Proof.
  destruct (extract_step_framing "1,2,3,4,5,6,7,8") as [_ [H _]].
  destruct H as [H _]; [reflexivity | simpl; lia | exact H].
Defined.

End FramingFacts.

(* ================================================================== *)
(** * Reading decimal literals *)
(* ================================================================== *)

Module NumFacts.
Import PyStr PyNum.
Import PrimFloat FloatOps.
Local Open Scope Z_scope.

#[local] Set Warnings "-inexact-float".

(** [of_decimal] rounds as the kernel's reader of binary64 literals does:
    on values that are not representable, on ties, at the edge of the
    subnormal range and at overflow. *)
Lemma of_decimal_agrees :
  of_decimal false 1 (-1) = Prim2SF 0.1%float
  /\ of_decimal true 85 (-6) = Prim2SF (-8.5e-5)%float
  /\ of_decimal false 9007199254740993 0 = Prim2SF 9007199254740993%float
  /\ of_decimal false 90071992547409930000000001 (-10)
     = Prim2SF 9007199254740993.0000000001%float
  /\ of_decimal false 1 23 = Prim2SF 1e23%float
  /\ of_decimal false 49 (-325) = Prim2SF 4.9e-324%float
  /\ of_decimal false 24703282292062327 (-340)
     = Prim2SF 2.4703282292062327e-324%float
  /\ of_decimal false 24703282292062328 (-340)
     = Prim2SF 2.4703282292062328e-324%float
  /\ of_decimal false 22250738585072011 (-324)
     = Prim2SF 2.2250738585072011e-308%float
  /\ of_decimal false 17976931348623157 292
     = Prim2SF 1.7976931348623157e308%float
  /\ of_decimal false 17976931348623159 292 = S754_infinity false
  /\ of_decimal false 1 (-400) = S754_zero false.
Proof.
  repeat (split; [vm_compute; reflexivity|]). vm_compute. reflexivity.
Qed.

(** [float] on strings: accepted spellings and rejected ones. *)
Lemma py_float_examples :
  py_float " 1_000.5e-1 " = Some (Prim2SF 100.05%float)
  /\ py_float "-.5" = Some (Prim2SF (-0.5)%float)
  /\ py_float "+Infinity" = Some (S754_infinity false)
  /\ py_float "NaN" = Some S754_nan
  /\ py_float "1e999" = Some (S754_infinity false)
  /\ py_float "-0" = Some (S754_zero true)
  /\ py_float "" = None
  /\ py_float "." = None
  /\ py_float "1e" = None
  /\ py_float "1__0" = None
  /\ py_float "0x10" = None
  /\ py_float "1 2" = None
  /\ py_float "12abc" = None.
Proof.
  repeat (split; [vm_compute; reflexivity|]). vm_compute. reflexivity.
Qed.

(** [int] on strings. *)
Lemma py_int_examples :
  py_int "65432" = Some 65432
  /\ py_int " +8_080 " = Some 8080
  /\ py_int "-1" = Some (-1)
  /\ py_int "" = None
  /\ py_int "80.0" = None
  /\ py_int "0x50" = None
  /\ py_int "http" = None
  /\ py_int "007" = Some 7
  /\ py_int (String (ascii_of_N 160) "80") = Some 80
  /\ py_int (String (ascii_of_N 28) "80") = None
  /\ py_int "_1" = None
  /\ py_int "1_" = None
  /\ py_int "1__0" = None
  /\ py_int "- 1" = None
  /\ py_int "1 2" = None.
Proof.
  repeat (split; [vm_compute; reflexivity|]). vm_compute. reflexivity.
Qed.

End NumFacts.

(* ================================================================== *)
(** * The rate estimate: [calculate_rate] *)
(* ================================================================== *)

Module RateFacts.
Import PyNum Client Spec.
Local Open Scope Z_scope.

Lemma of_int_0 : of_int 0 = fzero.
Proof. reflexivity. Qed.

Lemma of_int_1 : of_int 1 = fone.
Proof. reflexivity. Qed.

Lemma of_int_3 : of_int 3 = fthree.
Proof. reflexivity. Qed.

(** A float above zero is not a zero: the divisor of a guarded division. *)
Lemma fgt_zero_nonzero x : fgt x fzero = true -> is_zero x = false.
Proof. destruct x; simpl; [discriminate|reflexivity..]. Qed.

Lemma fgt_one_nonzero x : fgt x fone = true -> is_zero x = false.
Proof. destruct x; simpl; [discriminate|reflexivity..]. Qed.

Lemma max_1_nonzero x : is_zero (max_1 x) = false.
Proof.
  unfold max_1. rewrite of_int_1.
  destruct (fgt x fone) eqn:E; [now apply fgt_one_nonzero|reflexivity].
Qed.

(** [x - x] is never above zero (it is a zero, or a NaN for an infinity). *)
Lemma fsub_diag_not_positive x : fgt (fsub x x) fzero = false.
Proof.
  destruct x as [s|s| |s m e]; try (destruct s; reflexivity); try reflexivity.
  unfold fsub, SFsub. rewrite Z.sub_diag. reflexivity.
Qed.

(** [calculate_rate] by cases, with the division it performs. *)
Lemma calculate_rate_cases h :
  calculate_rate h =
    if (2 <=? List.length h)%nat
       && fgt (fsub (last h fzero) (hd fzero h)) fzero
    then Ok (fdiv (of_int (Z.of_nat (List.length h) - 1))
                  (fsub (last h fzero) (hd fzero h)))
    else Ok fzero.
Proof.
  unfold calculate_rate. rewrite of_int_0.
  destruct (List.length h <? 2)%nat eqn:L.
  - apply Nat.ltb_lt in L.
    replace (2 <=? List.length h)%nat with false
      by (symmetry; apply Nat.leb_gt; lia).
    reflexivity.
  - apply Nat.ltb_ge in L.
    replace (2 <=? List.length h)%nat with true
      by (symmetry; apply Nat.leb_le; lia).
    cbn [andb].
    destruct (fgt _ fzero) eqn:G; [|reflexivity].
    unfold truediv. now rewrite (fgt_zero_nonzero _ G).
Qed.

Lemma calculate_rate_ok h : exists r, calculate_rate h = Ok r.
Proof. rewrite calculate_rate_cases. destruct (_ && _); eauto. Qed.

(** ** A difference of exactly three seconds is the float 3.0 *)

(** Every way of writing 3 as [3 * 2^k * 2^-k] normalizes to the float 3.0, and
    only [k = 51] is canonical. *)
Lemma three_shifted_checked :
  forallb
    (fun k : nat =>
       match 3 * 2 ^ Z.of_nat k with
       | Zpos m =>
           match binary_round prec emax false m (- Z.of_nat k) with
           | S754_finite false m' e' =>
               (Zpos m' =? 6755399441055744) && (e' =? -51)
           | _ => false
           end
           && implb (canonical_mantissa prec emax m (- Z.of_nat k))
                    (Nat.eqb k 51)
       | _ => false
       end)
    (seq 0 1075) = true.
Proof. vm_compute. reflexivity. Qed.

Lemma three_shifted k m :
  0 <= k <= 1074 -> Zpos m = 3 * 2 ^ k ->
  binary_round prec emax false m (- k) = fthree
  /\ (canonical_mantissa prec emax m (- k) = true -> k = 51).
Proof.
  intros Hk Hm.
  pose proof three_shifted_checked as C.
  rewrite forallb_forall in C.
  specialize (C (Z.to_nat k)).
  rewrite Z2Nat.id in C by lia. rewrite <- Hm in C.
  assert (I : In (Z.to_nat k) (seq 0 1075)) by (apply in_seq; lia).
  specialize (C I). apply andb_prop in C. destruct C as [C1 C2].
  split.
  - destruct (binary_round prec emax false m (- k)) as [| | |s m' e']; try discriminate.
    destruct s; [discriminate|].
    apply andb_prop in C1. destruct C1 as [A B].
    apply Z.eqb_eq in A. apply Z.eqb_eq in B. unfold fthree. congruence.
  - intros V. rewrite V in C2. simpl in C2.
    apply Nat.eqb_eq in C2. lia.
Qed.

Lemma scaled_three M e :
  -1074 <= e -> M * 2 ^ (e + 1074) = 3 * 2 ^ 1074 ->
  0 <= - e <= 1074 /\ M = 3 * 2 ^ (- e).
Proof.
  intros He H.
  assert (P : 0 < 2 ^ 1074) by (apply Z.pow_pos_nonneg; lia).
  destruct (Z_le_gt_dec e 0) as [L|G].
  - split; [lia|].
    assert (Q : 0 < 2 ^ (e + 1074)) by (apply Z.pow_pos_nonneg; lia).
    assert (X : 2 ^ 1074 = 2 ^ (- e) * 2 ^ (e + 1074))
      by (rewrite <- Z.pow_add_r by lia; f_equal; lia).
    rewrite X, Z.mul_assoc in H.
    apply Z.mul_reg_r in H; [exact H|lia].
  - exfalso.
    assert (X : 2 ^ (e + 1074) = 2 * 2 ^ (e - 1) * 2 ^ 1074).
    { rewrite <- Z.pow_succ_r, <- Z.pow_add_r by lia. f_equal. lia. }
    rewrite X, Z.mul_assoc in H.
    apply Z.mul_reg_r in H; [|lia]. lia.
Qed.

Lemma valid_exponent s m e :
  is_valid (S754_finite s m e) = true -> -1074 <= e.
Proof.
  unfold is_valid, valid_binary, bounded, canonical_mantissa, fexp, emin.
  intros H. apply andb_prop in H. destruct H as [H _].
  apply Z.eqb_eq in H. unfold prec, emax in H. lia.
Qed.

Lemma iter_xO m d : Zpos (Pos.iter xO m d) = Zpos m * 2 ^ Zpos d.
Proof.
  induction d as [|d IH] using Pos.peano_ind.
  - simpl. lia.
  - rewrite Pos.iter_succ, Pos2Z.inj_succ, Z.pow_succ_r by lia.
    rewrite Pos2Z.inj_xO, IH. lia.
Qed.

Lemma shl_align_value m e ez :
  ez <= e -> Zpos (fst (shl_align m e ez)) = Zpos m * 2 ^ (e - ez).
Proof.
  intros H. unfold shl_align.
  destruct (ez - e) as [|p|p] eqn:D.
  - replace (e - ez) with 0 by lia. cbn [fst].
    now rewrite Z.pow_0_r, Z.mul_1_r.
  - lia.
  - cbn [fst]. rewrite iter_xO. f_equal. f_equal. lia.
Qed.

Lemma aligned_scaled s m e ez :
  -1074 <= ez -> ez <= e ->
  cond_Zopp s (Zpos (fst (shl_align m e ez))) * 2 ^ (ez + 1074)
  = cond_Zopp s (Zpos m) * 2 ^ (e + 1074).
Proof.
  intros H1 H2. rewrite (shl_align_value _ _ _ H2).
  replace (e + 1074) with ((e - ez) + (ez + 1074)) by lia.
  rewrite (Z.pow_add_r 2 (e - ez) (ez + 1074)) by lia.
  destruct s; cbn [cond_Zopp]; ring.
Qed.

(** When [y] is exactly [x + 3], the float subtraction [y - x] is exact. *)
Lemma fsub_exactly_three x y : exactly_plus x 3 y -> fsub y x = fthree.
Proof.
  intros (Vx & Vy & a & Sx & Sy).
  destruct x as [sx|sx| |sx mx ex]; try discriminate;
    destruct y as [sy|sy| |sy my ey]; try discriminate;
    cbn [scaled] in Sx, Sy.
  - exfalso. injection Sx as <-. injection Sy as Sy.
    assert (0 < 2 ^ 1074) by (apply Z.pow_pos_nonneg; lia). lia.
  - injection Sx as <-. injection Sy as Sy.
    pose proof (valid_exponent _ _ _ Vy) as Ey.
    destruct (scaled_three _ _ Ey Sy) as [K M].
    assert (P : 0 < 2 ^ (- ey)) by (apply Z.pow_pos_nonneg; lia).
    destruct sy; cbn [cond_Zopp] in M; [lia|].
    destruct (three_shifted (- ey) my K M) as [_ C].
    unfold is_valid, valid_binary, bounded in Vy.
    apply andb_prop in Vy. destruct Vy as [Vy _].
    rewrite Z.opp_involutive in C. specialize (C Vy).
    assert (ey = -51) by lia. subst ey.
    change (2 ^ (- -51)) with 2251799813685248 in M.
    unfold fsub, SFsub, fthree. f_equal. lia.
  - injection Sy as Sy. injection Sx as Sx.
    pose proof (valid_exponent _ _ _ Vx) as Ex.
    assert (Sx' : (- cond_Zopp sx (Zpos mx)) * 2 ^ (ex + 1074) = 3 * 2 ^ 1074)
      by lia.
    destruct (scaled_three _ _ Ex Sx') as [K M].
    assert (P : 0 < 2 ^ (- ex)) by (apply Z.pow_pos_nonneg; lia).
    destruct sx; cbn [cond_Zopp] in M; [|lia].
    assert (M' : Zpos mx = 3 * 2 ^ (- ex)) by lia.
    destruct (three_shifted (- ex) mx K M') as [_ C].
    unfold is_valid, valid_binary, bounded in Vx.
    apply andb_prop in Vx. destruct Vx as [Vx _].
    rewrite Z.opp_involutive in C. specialize (C Vx).
    assert (ex = -51) by lia. subst ex.
    change (2 ^ (- -51)) with 2251799813685248 in M'.
    unfold fsub, SFsub, fthree. simpl. f_equal. lia.
  - injection Sy as Sy. injection Sx as Sx.
    pose proof (valid_exponent _ _ _ Vx) as Ex.
    pose proof (valid_exponent _ _ _ Vy) as Ey.
    unfold fsub, SFsub.
    set (ez := Z.min ey ex).
    set (M := cond_Zopp sy (Zpos (fst (shl_align my ey ez)))
              - cond_Zopp sx (Zpos (fst (shl_align mx ex ez)))).
    assert (E : M * 2 ^ (ez + 1074) = 3 * 2 ^ 1074).
    { unfold M. rewrite Z.mul_sub_distr_r.
      rewrite !aligned_scaled by (unfold ez; lia). lia. }
    assert (Ez : -1074 <= ez) by (unfold ez; lia).
    destruct (scaled_three _ _ Ez E) as [K HM].
    assert (P : 0 < 2 ^ (- ez)) by (apply Z.pow_pos_nonneg; lia).
    destruct M as [|p|p]; try lia.
    unfold binary_normalize.
    replace ez with (- - ez) by lia.
    now apply three_shifted.
Qed.

Lemma fle_zero_not_positive x : SFleb x fzero = true -> fgt x fzero = false.
Proof.
  destruct x as [s|s| |s m e]; try destruct s; cbn; intros H;
    (reflexivity || discriminate).
Qed.

(** C3 (amended). The rate is exactly 0.0 for a history of fewer than two
    timestamps.  For two or more, with span = newest - oldest: when the span
    is above zero the rate is (count - 1) / span, and when it is not, the
    rate is 0.0.  For four timestamps whose values are exactly t0, t0+1,
    t0+2 and t0+3 the rate is exactly 1.0. *)
Theorem calculate_rate_spec :
  (forall h, (List.length h < 2)%nat -> calculate_rate h = Ok fzero)
  /\ (forall h, (2 <= List.length h)%nat ->
      let span := fsub (last h fzero) (hd fzero h) in
      (fgt span fzero = true ->
       calculate_rate h
         = Ok (fdiv (of_int (Z.of_nat (List.length h) - 1)) span))
      /\ (fgt span fzero = false -> calculate_rate h = Ok fzero))
  /\ (forall t0 t1 t2 t3,
      exactly_plus t0 1 t1 -> exactly_plus t0 2 t2 -> exactly_plus t0 3 t3 ->
      calculate_rate [t0; t1; t2; t3] = Ok fone).
Proof.
  split; [|split].
  - intros h L. rewrite calculate_rate_cases.
    replace (2 <=? List.length h)%nat with false
      by (symmetry; apply Nat.leb_gt; lia).
    reflexivity.
  - intros h L span. rewrite calculate_rate_cases.
    replace (2 <=? List.length h)%nat with true
      by (symmetry; apply Nat.leb_le; lia).
    fold span. split; intros G; now rewrite G.
  - intros t0 t1 t2 t3 _ _ H3. rewrite calculate_rate_cases.
    cbn [List.length last hd Nat.leb andb].
    rewrite (fsub_exactly_three _ _ H3). reflexivity.
Qed.

(** The theorem at four timestamps one second apart, a quarter past
    1700000000 seconds. *)
Lemma calculate_rate_spec_witness :
  calculate_rate
    [ of_decimal false 170000000025 (-2); of_decimal false 170000000125 (-2);
      of_decimal false 170000000225 (-2); of_decimal false 170000000325 (-2) ]
  = Ok fone.
Proof.
  apply (proj2 (proj2 calculate_rate_spec));
    (split; [reflexivity|split; [reflexivity|]]);
    eexists; (split; [reflexivity|vm_compute; reflexivity]).
Defined.

(** C3, as worded, fails: with newest before oldest the code returns 0.0
    where the formula gives -0.5, and with newest equal to oldest the code
    returns 0.0 where the formula divides by zero. *)
Lemma calculate_rate_counterexample :
  calculate_rate [of_int 5; of_int 3] = Ok fzero
  /\ rate_as_specified [of_int 5; of_int 3]
     = Ok (S754_finite true 4503599627370496 (-53))
  /\ calculate_rate [of_int 7; of_int 7] = Ok fzero
  /\ rate_as_specified [of_int 7; of_int 7] = Raise ZeroDivisionError.
Proof.
  repeat (split; [vm_compute; reflexivity|]). vm_compute. reflexivity.
Qed.

(** C10. [calculate_rate] returns a value for every history: it never
    raises [ZeroDivisionError].  It divides only under the guard
    [time_span > 0], where the divisor is not zero; for a history of two or
    more timestamps whose newest and oldest entries are equal, or whose span
    is zero or negative, it returns 0.0. *)
Theorem calculate_rate_total (h : list spec_float) :
  let span := fsub (last h fzero) (hd fzero h) in
  (exists r, calculate_rate h = Ok r)
  /\ calculate_rate h
     = (if (2 <=? List.length h)%nat && fgt span fzero
        then truediv (of_int (Z.of_nat (List.length h) - 1)) span
        else Ok fzero)
  /\ (fgt span fzero = true -> is_zero span = false)
  /\ ((2 <= List.length h)%nat ->
      last h fzero = hd fzero h -> calculate_rate h = Ok fzero)
  /\ ((2 <= List.length h)%nat ->
      SFleb span fzero = true -> calculate_rate h = Ok fzero).
Proof.
  intros span.
  assert (C : forall b : bool,
             (if b && fgt span fzero
              then truediv (of_int (Z.of_nat (List.length h) - 1)) span
              else Ok fzero)
             = (if b && fgt span fzero
                then Ok (fdiv (of_int (Z.of_nat (List.length h) - 1)) span)
                else Ok fzero)).
  { intros b. destruct b; [|reflexivity]. cbn [andb].
    destruct (fgt span fzero) eqn:G; [|reflexivity].
    unfold truediv. now rewrite (fgt_zero_nonzero _ G). }
  split; [apply calculate_rate_ok|].
  split; [rewrite C; apply calculate_rate_cases|].
  split; [apply fgt_zero_nonzero|].
  split.
  - intros _ E. rewrite calculate_rate_cases. fold span.
    replace (fgt span fzero) with false.
    + now rewrite andb_false_r.
    + unfold span. rewrite E. symmetry. apply fsub_diag_not_positive.
  - intros _ E. rewrite calculate_rate_cases. fold span.
    rewrite (fle_zero_not_positive _ E). now rewrite andb_false_r.
Qed.

(** The theorem at two equal timestamps. *)
Lemma calculate_rate_total_witness :
  calculate_rate [of_int 1700000000; of_int 1700000000] = Ok fzero.
Proof.
  apply (proj1 (proj2 (proj2 (proj2
           (calculate_rate_total [of_int 1700000000; of_int 1700000000])))));
    [simpl; lia | reflexivity].
Defined.

End RateFacts.

(* ================================================================== *)
(** * The record parser: [parse_data] and the candidate line *)
(* ================================================================== *)

Module ParserFacts.
Import PyStr PyStrFacts PyNum Framing Client Spec.

(** ** Trimming *)

Lemma lstrip_trimmed s : trimmed_left (lstrip s).
Proof.
  induction s as [|c r IH]; simpl; [exact I|].
  destruct (isspace c) eqn:E; [exact IH|exact E].
Qed.

Lemma lstrip_fixed s : trimmed_left s -> lstrip s = s.
Proof. destruct s as [|c r]; simpl; [reflexivity|]. now intros ->. Qed.

Lemma rstrip_trimmed_left s : trimmed_left s -> trimmed_left (rstrip s).
Proof.
  destruct s as [|c r]; simpl; [trivial|]. intros E.
  destruct (rstrip r); [now rewrite E|exact E].
Qed.

Lemma rstrip_idem s : rstrip (rstrip s) = rstrip s.
Proof.
  induction s as [|c r IH]; simpl; [reflexivity|].
  destruct (rstrip r) as [|d r'] eqn:R.
  - destruct (isspace c) eqn:E; simpl; [reflexivity|now rewrite E].
  - change (rstrip (String c (String d r')))
      with (match rstrip (String d r') with
            | EmptyString =>
                if isspace c then EmptyString else String c EmptyString
            | String a b => String c (String a b)
            end).
    now rewrite IH.
Qed.

(** [s.strip().strip() == s.strip()] *)
Lemma strip_idem s : strip (strip s) = strip s.
Proof.
  unfold strip.
  rewrite (lstrip_fixed (rstrip (lstrip s)))
    by apply rstrip_trimmed_left, lstrip_trimmed.
  apply rstrip_idem.
Qed.

Lemma count_lstrip c s : count c (lstrip s) <= count c s.
Proof.
  induction s as [|d r IH]; simpl; [lia|].
  destruct (isspace d); simpl; lia.
Qed.

Lemma count_rstrip c s : count c (rstrip s) <= count c s.
Proof.
  induction s as [|d r IH]; simpl; [lia|].
  destruct (rstrip r) as [|a b]; [destruct (isspace d)|]; simpl in *; lia.
Qed.

Lemma count_strip c s : count c (strip s) <= count c s.
Proof.
  unfold strip. pose proof (count_rstrip c (lstrip s)).
  pose proof (count_lstrip c s). lia.
Qed.

(** ** The six values *)

Lemma parse_values_length tokens values :
  parse_values tokens = Some values ->
  List.length values = List.length tokens.
Proof.
  revert values. induction tokens as [|t ts IH]; simpl; intros values H.
  - now injection H as <-.
  - destruct (py_float (strip t)); [|discriminate].
    destruct (parse_values ts) as [vs|]; [|discriminate].
    injection H as <-. simpl. now rewrite (IH vs).
Qed.

Lemma parse_values_parses tokens :
  (exists values, parse_values tokens = Some values)
  <-> Forall (parses false) tokens.
Proof.
  induction tokens as [|t ts IH]; simpl.
  - split; [constructor|eauto].
  - split.
    + intros [values H].
      destruct (py_float (strip t)) as [v|] eqn:F; [|discriminate].
      destruct (parse_values ts) as [vs|]; [|discriminate].
      constructor; [exists v; split; [exact F|discriminate]|].
      apply IH. eauto.
    + intros H. inversion H as [|? ? [v [F _]] Hts]; subst.
      apply IH in Hts. destruct Hts as [vs E].
      rewrite F, E. simpl. eauto.
Qed.

Lemma combine_keys (values : list spec_float) :
  List.length values = 6 ->
  map fst (combine data_keys values) = data_keys
  /\ map snd (combine data_keys values) = values
  /\ combine data_keys values <> [].
Proof.
  intros L.
  do 6 (destruct values as [|? values]; [discriminate|]).
  destruct values; [|discriminate].
  repeat split. discriminate.
Qed.

(** [parse_data] on a trimmed text. *)
Lemma parse_data_trimmed l :
  strip l = l ->
  parse_data l =
    if nonempty l then
      match parse_values (split comma l) with
      | Some values =>
          if (List.length values =? 6)%nat then Some (combine data_keys values)
          else None
      | None => None
      end
    else None.
Proof.
  intros E. unfold parse_data. rewrite E. now destruct (nonempty l).
Qed.

(** What [accepted] computes, in terms of the tokens of the trimmed line. *)
Lemma accepted_cases line :
  accepted line =
    match parse_values (split comma (strip line)) with
    | Some values =>
        if (List.length values =? 6)%nat then Some (combine data_keys values)
        else None
    | None => None
    end.
Proof.
  unfold accepted. cbv zeta.
  rewrite (parse_data_trimmed _ (strip_idem line)).
  set (l := strip line).
  destruct (parse_values (split comma l)) as [values|] eqn:P.
  - pose proof (parse_values_length _ _ P) as L.
    destruct (List.length values =? 6)%nat eqn:L6.
    + apply Nat.eqb_eq in L6.
      destruct (combine_keys _ L6) as (_ & _ & N).
      assert (C : contains comma l = true).
      { destruct (contains comma l) eqn:C; [reflexivity|].
        rewrite (contains_false_split _ _ C) in L. simpl in L. lia. }
      assert (NE : nonempty l = true).
      { destruct l; [discriminate C|reflexivity]. }
      rewrite NE, C. cbn [andb].
      destruct (combine data_keys values) eqn:E; [congruence|reflexivity].
    + destruct (nonempty l && contains comma l); [|reflexivity].
      now destruct (nonempty l).
  - destruct (nonempty l && contains comma l); [|reflexivity].
    now destruct (nonempty l).
Qed.

Lemma handle_line_accepted clock line :
  handle_line clock line =
    match accepted line with
    | Some d => update_display clock d
    | None => ret tt
    end.
Proof.
  unfold handle_line, accepted. cbv zeta.
  destruct (nonempty (strip line) && contains comma (strip line));
    [|reflexivity].
  destruct (parse_data (strip line)) as [[|kv d]|]; reflexivity.
Qed.

Lemma accepted_well_formed line :
  (exists d, accepted line = Some d) <-> well_formed false line.
Proof.
  rewrite accepted_cases. unfold well_formed. cbv zeta.
  set (l := strip line). split.
  - intros [d H].
    destruct (parse_values (split comma l)) as [values|] eqn:P; [|discriminate].
    destruct (List.length values =? 6)%nat eqn:L6; [|discriminate].
    apply Nat.eqb_eq in L6.
    pose proof (parse_values_length _ _ P) as L. rewrite L6 in L.
    assert (C : contains comma l = true).
    { destruct (contains comma l) eqn:C; [reflexivity|].
      rewrite (contains_false_split _ _ C) in L. discriminate L. }
    repeat split.
    + intros E. rewrite E in C. discriminate C.
    + exact C.
    + now symmetry.
    + apply parse_values_parses. eauto.
  - intros (_ & _ & L & F).
    apply parse_values_parses in F. destruct F as [values P].
    rewrite P. pose proof (parse_values_length _ _ P) as L'.
    rewrite L in L'. apply Nat.eqb_eq in L'. rewrite L'. eauto.
Qed.

(** C2 (amended). A candidate line is accepted and gives a record exactly
    when, after trimming, it is non-empty, has a comma, and splits into
    exactly six comma-separated tokens that all parse under Python's
    [float] (which also reads inf, infinity and nan, and rounds too large
    a literal to an infinity).  The record binds the six keys, in their
    declared order, to the six parsed values, and is handed whole to
    [update_display]; any other line gives no record and leaves the client
    and the display as they were. *)
Theorem accepted_iff_well_formed (clock : nat -> spec_float) (line : string) :
  ((exists d, accepted line = Some d) <-> well_formed false line)
  /\ (forall d, accepted line = Some d ->
      map fst d = data_keys
      /\ parse_values (split comma (strip line)) = Some (map snd d)
      /\ handle_line clock line = update_display clock d)
  /\ (accepted line = None ->
      forall w, handle_line clock line w = (Ok tt, w)).
Proof.
  split; [apply accepted_well_formed|]. split.
  - intros d H. rewrite handle_line_accepted, H.
    rewrite accepted_cases in H.
    destruct (parse_values (split comma (strip line))) as [values|];
      [|discriminate].
    destruct (List.length values =? 6)%nat eqn:L6; [|discriminate].
    apply Nat.eqb_eq in L6.
    assert (E : d = combine data_keys values) by congruence. subst d.
    destruct (combine_keys _ L6) as (K & V & _).
    now rewrite K, V.
  - intros H w. now rewrite handle_line_accepted, H.
Qed.

(** The theorem at a line with surrounding blanks and an infinite field. *)
Lemma accepted_iff_well_formed_witness :
  well_formed false " 1,2,3,-inf,5,6 ".
Proof.
  apply (proj1 (accepted_iff_well_formed (fun _ => fzero) " 1,2,3,-inf,5,6 ")).
  eexists. vm_compute. reflexivity.
Defined.

(** C2, as worded, fails: a line whose tokens are not all finite numbers is
    accepted all the same. *)
Lemma accepted_not_finite :
  (exists d, accepted "nan,inf,1e999,2,3,4" = Some d)
  /\ ~ well_formed true "nan,inf,1e999,2,3,4".
Proof.
  split.
  - eexists. vm_compute. reflexivity.
  - intros (_ & _ & _ & F).
    inversion F as [|t ts [v [P Fin]] _]; subst.
    vm_compute in P. injection P as <-.
    specialize (Fin eq_refl). discriminate Fin.
Qed.

End ParserFacts.

(* ================================================================== *)
(** * The receive loop: [update_display], lines 187-202 of [run] *)
(* ================================================================== *)

Module LoopFacts.
Import PyStr PyStrFacts PyNum Framing FramingFacts Client Spec Sample.
Import ParserFacts RateFacts.

Lemma accepted_keys line d : accepted line = Some d -> map fst d = data_keys.
Proof.
  rewrite accepted_cases.
  destruct (parse_values (split comma (strip line))) as [values|];
    [|discriminate].
  destruct (List.length values =? 6)%nat eqn:L6; [|discriminate].
  apply Nat.eqb_eq in L6. intros E.
  assert (D : d = combine data_keys values) by congruence. subst d.
  apply (combine_keys _ L6).
Qed.

(** A line with fewer than five commas gives no record. *)
Lemma accepted_few_commas line : count comma line < 5 -> accepted line = None.
Proof.
  intros C. rewrite accepted_cases.
  destruct (parse_values (split comma (strip line))) as [values|] eqn:P;
    [|reflexivity].
  apply parse_values_length in P. rewrite split_length in P.
  pose proof (count_strip comma line).
  replace (List.length values =? 6)%nat with false; [reflexivity|].
  symmetry. apply Nat.eqb_neq. lia.
Qed.

(** A line with a token that does not parse gives no record. *)
Lemma accepted_bad_token line t :
  In t (split comma (strip line)) -> py_float (strip t) = None ->
  accepted line = None.
Proof.
  intros I F. rewrite accepted_cases.
  destruct (parse_values (split comma (strip line))) as [values|] eqn:P;
    [|reflexivity].
  exfalso.
  assert (A : Forall (parses false) (split comma (strip line)))
    by (apply parse_values_parses; eauto).
  rewrite Forall_forall in A. destruct (A t I) as [v [V _]]. congruence.
Qed.

(** A line whose trimmed text does not have six tokens gives no record. *)
Lemma accepted_not_six line :
  List.length (split comma (strip line)) <> 6 -> accepted line = None.
Proof.
  intros N. rewrite accepted_cases.
  destruct (parse_values (split comma (strip line))) as [values|] eqn:P;
    [|reflexivity].
  apply parse_values_length in P.
  replace (List.length values =? 6)%nat with false; [reflexivity|].
  symmetry. apply Nat.eqb_neq. lia.
Qed.

(** ** Running the monad one call at a time *)

Lemma bind_emit {B : Type} o (k : unit -> M B) w :
  bind (emit o) k w = k tt (mkWorld (self w) (ticks w) (out w ++ [o])).
Proof. reflexivity. Qed.

Lemma bind_update_field {B : Type} r c t n (k : unit -> M B) w :
  bind (update_field r c t n) k w
  = k tt (mkWorld (self w) (ticks w) (out w ++ [Cell r c t n])).
Proof. reflexivity. Qed.

Lemma bind_modify_self {B : Type} f (k : unit -> M B) w :
  bind (modify_self f) k w = k tt (mkWorld (f (self w)) (ticks w) (out w)).
Proof. reflexivity. Qed.

Lemma bind_time_time {B : Type} clock (k : spec_float -> M B) w :
  bind (time_time clock) k w
  = k (clock (ticks w)) (mkWorld (self w) (S (ticks w)) (out w)).
Proof. reflexivity. Qed.

Lemma bind_get_self {B : Type} (k : client -> M B) w :
  bind get_self k w = k (self w) w.
Proof. reflexivity. Qed.

Lemma bind_lift_ok {A B : Type} (a : A) (k : A -> M B) w :
  bind (lift (Ok a)) k w = k a w.
Proof. reflexivity. Qed.

Lemma bind_ret {A B : Type} (a : A) (k : A -> M B) w :
  bind (ret a) k w = k a w.
Proof. reflexivity. Qed.

Ltac step :=
  first [ rewrite bind_update_field | rewrite bind_emit
        | rewrite bind_modify_self | rewrite bind_time_time
        | rewrite bind_get_self | rewrite bind_lift_ok | rewrite bind_ret ];
  cbn [self ticks out].

(** ** The pure parser *)

Lemma parse_buffer_S fuel buffer :
  parse_buffer (S fuel) buffer =
    match extract_step buffer with
    | None => ([], buffer)
    | Some (line, rest) =>
        let (ds, left) := parse_buffer fuel rest in
        (match accepted line with Some d => d :: ds | None => ds end, left)
    end.
Proof. reflexivity. Qed.

Lemma parse_buffer_fuel fuel1 fuel2 buffer :
  String.length buffer < fuel1 -> String.length buffer < fuel2 ->
  parse_buffer fuel1 buffer = parse_buffer fuel2 buffer.
Proof.
  revert fuel2 buffer.
  induction fuel1 as [|f1 IH]; intros fuel2 buffer L1 L2; [lia|].
  destruct fuel2 as [|f2]; [lia|]. rewrite !parse_buffer_S.
  destruct (extract_step buffer) as [[line rest]|] eqn:E; [|reflexivity].
  apply extract_step_shortens in E.
  rewrite (IH f2 rest) by lia. reflexivity.
Qed.

(** The loop equation of the parser: the fuel never runs out. *)
Lemma records_step buffer :
  records buffer =
    match extract_step buffer with
    | None => ([], buffer)
    | Some (line, rest) =>
        (match accepted line with
         | Some d => d :: fst (records rest)
         | None => fst (records rest)
         end, snd (records rest))
    end.
Proof.
  unfold records. rewrite parse_buffer_S.
  destruct (extract_step buffer) as [[line rest]|] eqn:E; [|reflexivity].
  apply extract_step_shortens in E.
  rewrite (parse_buffer_fuel (String.length buffer) (S (String.length rest)))
    by lia.
  destruct (parse_buffer (S (String.length rest)) rest). reflexivity.
Qed.

(** The parser stops only when nothing more can be extracted. *)
Lemma records_done buffer : extract_step (snd (records buffer)) = None.
Proof.
  remember (String.length buffer) as n eqn:L.
  revert buffer L. induction n as [n IH] using lt_wf_ind. intros buffer L.
  rewrite records_step.
  destruct (extract_step buffer) as [[line rest]|] eqn:E; [|exact E].
  cbn [snd]. apply (IH (String.length rest)); [|reflexivity].
  apply extract_step_shortens in E. lia.
Qed.

Lemma parse_buffer_few_commas fuel buffer :
  count comma buffer < 5 -> fst (parse_buffer fuel buffer) = [].
Proof.
  revert buffer. induction fuel as [|fuel IH]; intros buffer C; [reflexivity|].
  rewrite parse_buffer_S.
  destruct (extract_step buffer) as [[line rest]|] eqn:E; [|reflexivity].
  apply extract_step_commas_le in E. destruct E as [E1 E2].
  specialize (IH rest). destruct (parse_buffer fuel rest) as [ds left].
  rewrite accepted_few_commas by lia. apply IH. lia.
Qed.

Section Loop.
Variable clock : nat -> spec_float.

(** ** [update_display] on a record with the six keys *)

Lemma update_display_spec d w :
  map fst d = data_keys ->
  exists cells,
    update_display clock d w
    = (Ok tt,
       mkWorld
         (with_rate_history
            (deque_append (rate_history (self w)) (clock (ticks w)))
            (with_data_count (S (data_count (self w))) (self w)))
         (S (ticks w)) (out w ++ cells))
    /\ forallb is_cell cells = true.
Proof.
  intros K.
  do 6 (destruct d as [|[? ?] d]; [discriminate K|]).
  destruct d; [|discriminate K].
  injection K as -> -> -> -> -> ->.
  unfold update_display.
  do 4 step.
  cbn [rate_history with_rate_history with_data_count data_count host port].
  destruct (calculate_rate_ok
              (deque_append (rate_history (self w)) (clock (ticks w))))
    as [r R].
  rewrite R. cbn [getitem String.eqb Ascii.eqb Bool.eqb].
  repeat step.
  unfold update_field, emit. cbn [self ticks out].
  rewrite <- !List.app_assoc. eexists. split; reflexivity.
Qed.

Lemma shown_spec d w :
  map fst d = data_keys ->
  update_display clock d w = (Ok tt, shown clock d w)
  /\ self (shown clock d w)
     = with_rate_history
         (deque_append (rate_history (self w)) (clock (ticks w)))
         (with_data_count (S (data_count (self w))) (self w))
  /\ ticks (shown clock d w) = S (ticks w)
  /\ exists cells, out (shown clock d w) = out w ++ cells
                   /\ forallb is_cell cells = true.
Proof.
  intros K. destruct (update_display_spec d w K) as (cells & U & C).
  unfold shown. rewrite U. cbn [snd self ticks out].
  do 3 (split; [reflexivity|]). eauto.
Qed.

(** A candidate line is displayed if it is accepted, and has no effect
    otherwise; [handle_line] never raises. *)
Lemma handle_line_spec line w :
  handle_line clock line w
  = (Ok tt, match accepted line with
            | Some d => shown clock d w
            | None => w
            end).
Proof.
  rewrite handle_line_accepted.
  destruct (accepted line) as [d|] eqn:A; [|reflexivity].
  apply (shown_spec d w (accepted_keys _ _ A)).
Qed.

(** The loop is its pure parser followed by one [update_display] per
    record, in order; it never raises. *)
Lemma process_messages_spec fuel buffer w :
  process_messages clock fuel buffer w
  = (Ok (snd (parse_buffer fuel buffer)),
     fold_left (fun w d => shown clock d w) (fst (parse_buffer fuel buffer)) w).
Proof.
  revert buffer w. induction fuel as [|fuel IH]; intros buffer w; [reflexivity|].
  rewrite parse_buffer_S. cbn [process_messages].
  destruct (extract_step buffer) as [[line rest]|]; [|reflexivity].
  unfold bind. rewrite handle_line_spec, IH.
  destruct (parse_buffer fuel rest) as [ds left].
  destruct (accepted line); reflexivity.
Qed.

(** ** One turn of the session loop, by what the socket delivers *)

Lemma iteration_data d buffer w :
  nonempty d = true ->
  iteration clock (Data d) buffer w
  = (Ok (Continue (snd (records (buffer ++ d)))),
     fold_left (fun w d => shown clock d w) (fst (records (buffer ++ d))) w).
Proof.
  intros N. unfold iteration, try_except, recv. rewrite bind_ret, N.
  cbn [negb]. unfold bind. rewrite process_messages_spec. reflexivity.
Qed.

Lemma iteration_timeout buffer w :
  iteration clock TimedOut buffer w = (Ok (Continue buffer), w).
Proof. reflexivity. Qed.

Lemma iteration_closed buffer w :
  iteration clock (Data EmptyString) buffer w
  = (Ok Break,
     mkWorld (self w) (ticks w)
             (out w ++ [Cell 18 16 (Status ServerDisconnected) 20])).
Proof. reflexivity. Qed.

Lemma iteration_failed buffer w :
  iteration clock Failed buffer w
  = (Ok Break,
     mkWorld (self w) (ticks w) (out w ++ [Cell 18 16 (Status ErrorShown) 20])).
Proof. reflexivity. Qed.

Lemma iteration_interrupted buffer w :
  iteration clock Interrupted buffer w = (Raise KeyboardInterrupt, w).
Proof. reflexivity. Qed.

(** C4 (amended). A buffer with fewer than six comma-separated tokens
    gives no record and no change of the display, and the loop stops only
    when nothing more can be extracted; when the buffer has no newline
    either, it is left as it is, for the next receive.  Every
    extraction consumes exactly one candidate and its delimiter (the text
    up to the first newline, or else the first six tokens), and a candidate
    that does not trim to six tokens, or that has a token which does not
    parse as a number, gives no record and changes nothing: it is dropped
    and the rest of the buffer is kept. *)
Theorem incomplete_kept_garbage_dropped :
  (forall buffer w,
      (List.length (split comma buffer) < 6)%nat ->
      fst (records buffer) = []
      /\ process_messages clock (S (String.length buffer)) buffer w
         = (Ok (snd (records buffer)), w)
      /\ extract_step (snd (records buffer)) = None)
  /\ (forall buffer w,
      contains newline buffer = false ->
      (List.length (split comma buffer) < 6)%nat ->
      process_messages clock (S (String.length buffer)) buffer w
      = (Ok buffer, w))
  /\ (forall buffer line rest,
      extract_step buffer = Some (line, rest) ->
      (buffer = (line ++ String newline rest)%string
       \/ buffer = (line ++ String comma rest)%string
       \/ (buffer = line /\ rest = EmptyString))
      /\ ((List.length (split comma (strip line)) <> 6%nat
           \/ exists t, In t (split comma (strip line))
                        /\ py_float (strip t) = None) ->
          accepted line = None
          /\ forall w, handle_line clock line w = (Ok tt, w))).
Proof.
  split; [|split].
  - intros buffer w L. rewrite split_length in L.
    assert (R : fst (records buffer) = [])
      by (apply parse_buffer_few_commas; lia).
    split; [exact R|]. split; [|apply records_done].
    rewrite process_messages_spec. fold (records buffer). now rewrite R.
  - intros buffer w N L.
    pose proof (extract_step_commas _ N) as E.
    apply Nat.leb_gt in L. rewrite L in E.
    cbn [process_messages]. now rewrite E.
  - intros buffer line rest E. split.
    + destruct (extract_step_consumes _ _ _ E) as [H|[H|(H & R & _)]]; auto.
    + intros B.
      assert (A : accepted line = None).
      { destruct B as [B|(t & I & F)];
          [now apply accepted_not_six|now apply (accepted_bad_token line t)]. }
      split; [exact A|]. intros w. now rewrite handle_line_spec, A.
Qed.

End Loop.

(** The theorem at a buffer holding four fields of a record so far. *)
Lemma incomplete_kept_witness :
  process_messages (fun _ => fzero) (S (String.length chunk1)) chunk1
    (mkWorld (new_client "127.0.0.1" 65432) 1 [])
  = (Ok chunk1, mkWorld (new_client "127.0.0.1" 65432) 1 []).
Proof.
  apply (proj1 (proj2 (incomplete_kept_garbage_dropped (fun _ => fzero))));
    [reflexivity | simpl; lia].
Defined.

(** C4, as worded, fails.  The buffer [1,2,3,4,5,6,-] holds a token that
    does not parse as a number, and yet gives a record (of its first six
    tokens).  The buffer [1,2,3,4,5,] is a record whose sixth field has not
    arrived yet, and it is consumed and dropped, not kept. *)
Lemma failing_token_yet_record :
  (In "-" (split comma "1,2,3,4,5,6,-") /\ py_float (strip "-") = None)
  /\ (exists d, records "1,2,3,4,5,6,-" = ([d], "-"))
  /\ data_count
       (self (snd (process_messages (fun _ => fzero) 14 "1,2,3,4,5,6,-"
                     (mkWorld (new_client "127.0.0.1" 65432) 1 []))))
     = 1
  /\ records "1,2,3,4,5," = ([], EmptyString).
Proof.
  split; [split; [simpl; tauto|reflexivity]|].
  split; [eexists; vm_compute; reflexivity|].
  split; vm_compute; reflexivity.
Qed.

Section Examples.
Variable clock : nat -> spec_float.

Lemma records_sample_stream : records sample_stream = ([sample_record], EmptyString).
Proof. vm_compute. reflexivity. Qed.

Lemma records_chunk1 : records chunk1 = ([], chunk1).
Proof. vm_compute. reflexivity. Qed.

Lemma records_chunks : records (chunk1 ++ chunk2) = ([sample_record], EmptyString).
Proof. vm_compute. reflexivity. Qed.

Lemma sample_record_keys : map fst sample_record = data_keys.
Proof. reflexivity. Qed.

(** C5. With the stream arriving as the chunk [10.5,2.3,25.0,1.5] and then
    the chunk [00,1.480,50.2] with its newline, the first turn of the loop
    gives no record and keeps the chunk in the buffer, and the second turn
    gives exactly one record, the one of the whole line, and empties the
    buffer; a session that receives just these two chunks has counted no
    message after the first and one message after the second. *)
Theorem split_record_assembled (w : world) (h : string) (p : Z) :
  records chunk1 = ([], chunk1)
  /\ records (chunk1 ++ chunk2) = ([sample_record], EmptyString)
  /\ iteration clock (Data chunk1) EmptyString w = (Ok (Continue chunk1), w)
  /\ iteration clock (Data chunk2) chunk1 w
     = (Ok (Continue EmptyString), shown clock sample_record w)
  /\ data_count (self (shown clock sample_record w)) = S (data_count (self w))
  /\ (let (r, w1) := run clock true [Data chunk1] (mkWorld (new_client h p) 0 []) in
      r = Ok (StillStreaming chunk1) /\ data_count (self w1) = 0)
  /\ (let (r, w2) :=
        run clock true [Data chunk1; Data chunk2]
            (mkWorld (new_client h p) 0 []) in
      r = Ok (StillStreaming EmptyString) /\ data_count (self w2) = 1).
Proof.
  split; [exact records_chunk1|].
  split; [exact records_chunks|].
  split.
  { rewrite iteration_data by reflexivity.
    change (EmptyString ++ chunk1)%string with chunk1.
    now rewrite records_chunk1. }
  split.
  { rewrite iteration_data by reflexivity. now rewrite records_chunks. }
  split.
  { destruct (shown_spec clock sample_record w sample_record_keys)
      as (_ & S & _).
    now rewrite S. }
  split; vm_compute; split; reflexivity.
Qed.

(** C6. The stream [10.5,2.3,25.0,1.500,1.480,50.2] with its newline gives
    exactly one record, with SLED current 10.5, photo current 2.3, SLED
    temperature 25.0, target SAG power 1.500, SAG power 1.480 and TEC
    current 50.2, each the binary64 number of that literal, bound to the
    six keys in their declared order; the loop displays that record once
    and empties the buffer. *)
Theorem sample_stream_parsed (w : world) :
  records sample_stream = ([sample_record], EmptyString)
  /\ extract_step sample_stream = Some (sample_line, EmptyString)
  /\ accepted sample_line = Some sample_record
  /\ parse_data sample_stream = Some sample_record
  /\ map fst sample_record = data_keys
  /\ process_messages clock (S (String.length sample_stream)) sample_stream w
     = (Ok EmptyString, shown clock sample_record w).
Proof.
  split; [exact records_sample_stream|].
  do 4 (split; [vm_compute; reflexivity|]).
  rewrite process_messages_spec. fold (records sample_stream).
  now rewrite records_sample_stream.
Qed.

End Examples.

End LoopFacts.

(* ================================================================== *)
(** * The session: arrival history, termination and the summary *)
(* ================================================================== *)

Module SessionFacts.
Import PyStr PyNum Framing Client Invariants.
Import ParserFacts RateFacts LoopFacts.
Local Open Scope nat_scope.

(** ** The bounded deque *)

Lemma deque_append_short {A : Type} (h : list A) x :
  List.length h < maxlen -> deque_append h x = h ++ [x].
Proof.
  intros L. unfold deque_append. rewrite length_app. cbn [List.length].
  replace (maxlen <? List.length h + 1) with false; [reflexivity|].
  symmetry. apply Nat.ltb_ge. lia.
Qed.

Lemma deque_append_full {A : Type} (h : list A) x :
  List.length h = maxlen -> deque_append h x = tl h ++ [x].
Proof.
  intros L. unfold deque_append. rewrite length_app. cbn [List.length].
  replace (maxlen <? List.length h + 1) with true
    by (symmetry; apply Nat.ltb_lt; lia).
  destruct h; [discriminate L|reflexivity].
Qed.

Lemma deque_append_length {A : Type} (h : list A) x :
  List.length h <= maxlen -> List.length (deque_append h x) <= maxlen.
Proof.
  intros L. destruct (Nat.eq_dec (List.length h) maxlen) as [E|N].
  - rewrite (deque_append_full _ _ E), length_app. cbn [List.length].
    destruct h; [discriminate E|]. simpl in *. lia.
  - rewrite deque_append_short by lia. rewrite length_app. simpl. lia.
Qed.

Lemma lastn_length {A : Type} k (l : list A) : List.length (lastn k l) <= k.
Proof. unfold lastn. rewrite length_skipn. lia. Qed.

Lemma tl_skipn {A : Type} k (l : list A) : tl (skipn k l) = skipn (S k) l.
Proof.
  revert l. induction k as [|k IH]; intros [|a l]; try reflexivity.
  apply IH.
Qed.

(** Appending to the last [maxlen] items gives the last [maxlen] items of
    the longer list. *)
Lemma deque_append_lastn {A : Type} (l : list A) x :
  deque_append (lastn maxlen l) x = lastn maxlen (l ++ [x]).
Proof.
  pose proof (eq_refl : maxlen = 50) as M.
  unfold lastn. rewrite length_app. cbn [List.length].
  destruct (Nat.lt_ge_cases (List.length l) maxlen) as [L|L].
  - replace (List.length l - maxlen) with 0 by lia.
    replace (List.length l + 1 - maxlen) with 0 by lia.
    cbn [skipn]. now apply deque_append_short.
  - rewrite deque_append_full by (rewrite length_skipn; lia).
    rewrite tl_skipn, skipn_app.
    replace (S (List.length l - maxlen)) with (List.length l + 1 - maxlen) by lia.
    replace (List.length l + 1 - maxlen - List.length l) with 0 by lia.
    reflexivity.
Qed.

Lemma arrivals_S clock n :
  arrivals clock (S n) = arrivals clock n ++ [clock (S n)].
Proof. unfold arrivals. now rewrite seq_S, map_app. Qed.

(** ** Streaming *)

Lemma streamed_refl w : streamed w w.
Proof.
  unfold streamed. repeat split; try reflexivity.
  exists []. now rewrite app_nil_r.
Qed.

Lemma streamed_trans w1 w2 w3 : streamed w1 w2 -> streamed w2 w3 -> streamed w1 w3.
Proof.
  intros (A1 & A2 & A3 & A4 & A5 & A6 & A7 & c1 & O1 & C1)
         (B1 & B2 & B3 & B4 & B5 & B6 & B7 & c2 & O2 & C2).
  unfold streamed. repeat split; try congruence; try lia.
  exists (c1 ++ c2). split.
  - now rewrite O2, O1, List.app_assoc.
  - rewrite forallb_app. now rewrite C1, C2.
Qed.

Lemma streamed_cell w r c t n :
  streamed w (mkWorld (self w) (ticks w) (out w ++ [Cell r c t n])).
Proof.
  unfold streamed. cbn [self out]. repeat split; try reflexivity.
  now exists [Cell r c t n].
Qed.

Lemma history_ok_cell clock w o :
  history_ok clock w -> history_ok clock (mkWorld (self w) (ticks w) (out w ++ o)).
Proof. now unfold history_ok. Qed.

Section Streaming.
Variable clock : nat -> spec_float.

Lemma shown_streamed d w : map fst d = data_keys -> streamed w (shown clock d w).
Proof.
  intros K. destruct (shown_spec clock d w K) as (_ & S & _ & cells & O & C).
  unfold streamed. rewrite S. cbn. repeat split; try lia. eauto.
Qed.

Lemma shown_history_ok d w :
  map fst d = data_keys -> history_ok clock w -> history_ok clock (shown clock d w).
Proof.
  intros K [T H]. destruct (shown_spec clock d w K) as (_ & S & T' & _).
  unfold history_ok. rewrite S, T'. cbn [data_count rate_history
    with_rate_history with_data_count].
  split; [now rewrite T|].
  now rewrite H, T, arrivals_S, deque_append_lastn.
Qed.

Lemma fold_shown ds w :
  Forall (fun d => map fst d = data_keys) ds ->
  streamed w (fold_left (fun w d => shown clock d w) ds w)
  /\ (history_ok clock w ->
      history_ok clock (fold_left (fun w d => shown clock d w) ds w)).
Proof.
  revert w. induction ds as [|d ds IH]; intros w F; cbn [fold_left].
  - split; [apply streamed_refl|trivial].
  - inversion F as [|? ? K Fs]; subst.
    destruct (IH (shown clock d w) Fs) as [S H]. split.
    + apply (streamed_trans _ (shown clock d w));
        [apply shown_streamed; exact K|exact S].
    + intros H0. apply H. now apply shown_history_ok.
Qed.

Lemma parse_buffer_keys fuel buffer :
  Forall (fun d => map fst d = data_keys) (fst (parse_buffer fuel buffer)).
Proof.
  revert buffer. induction fuel as [|fuel IH]; intros buffer; [constructor|].
  rewrite parse_buffer_S.
  destruct (extract_step buffer) as [[line rest]|]; [|constructor].
  specialize (IH rest). destruct (parse_buffer fuel rest) as [ds left].
  destruct (accepted line) as [d|] eqn:A; [|exact IH].
  constructor; [now apply (accepted_keys line)|exact IH].
Qed.

(** One turn keeps the connection state and the history invariant, and
    raises nothing but a keyboard interrupt. *)
Lemma iteration_inv ev buffer w :
  streamed w (snd (iteration clock ev buffer w))
  /\ (history_ok clock w -> history_ok clock (snd (iteration clock ev buffer w)))
  /\ match fst (iteration clock ev buffer w) with
     | Ok _ => True
     | Raise e => e = KeyboardInterrupt
     end.
Proof.
  destruct ev as [d| | |].
  - destruct d as [|c d].
    + rewrite iteration_closed. cbn [fst snd].
      split; [apply streamed_cell|]. split; [apply history_ok_cell|exact I].
    + rewrite iteration_data by reflexivity. cbn [fst snd].
      destruct (fold_shown (fst (records (buffer ++ String c d))) w
                  (parse_buffer_keys _ _)) as [S H].
      auto.
  - rewrite iteration_timeout. cbn [fst snd].
    split; [apply streamed_refl|]. auto.
  - rewrite iteration_failed. cbn [fst snd].
    split; [apply streamed_cell|]. split; [apply history_ok_cell|exact I].
  - rewrite iteration_interrupted. cbn [fst snd].
    split; [apply streamed_refl|]. auto.
Qed.

Lemma stream_cons ev rest buffer w :
  stream clock (ev :: rest) buffer w =
    if running (self w) then
      match iteration clock ev buffer w with
      | (Ok Break, w') => (Ok None, w')
      | (Ok (Continue buffer'), w') => stream clock rest buffer' w'
      | (Raise e, w') => (Raise e, w')
      end
    else (Ok None, w).
Proof.
  cbn [stream]. rewrite bind_get_self.
  destruct (running (self w)); [|reflexivity].
  unfold bind. destruct (iteration clock ev buffer w) as [[[b|]|e] w'];
    reflexivity.
Qed.

Lemma stream_nil buffer w :
  stream clock [] buffer w
  = (Ok (if running (self w) then Some buffer else None), w).
Proof. reflexivity. Qed.

(** The loop keeps the connection state and the history invariant; it
    ends still going, or left, or interrupted from the keyboard. *)
Lemma stream_inv events buffer w :
  streamed w (snd (stream clock events buffer w))
  /\ (history_ok clock w ->
      history_ok clock (snd (stream clock events buffer w)))
  /\ match fst (stream clock events buffer w) with
     | Ok (Some _) => running (self w) = true
     | Ok None => True
     | Raise e => e = KeyboardInterrupt
     end.
Proof.
  revert buffer w. induction events as [|ev rest IH]; intros buffer w.
  - rewrite stream_nil. cbn [fst snd].
    split; [apply streamed_refl|]. split; [trivial|].
    now destruct (running (self w)).
  - rewrite stream_cons. destruct (running (self w)) eqn:R.
    + destruct (iteration_inv ev buffer w) as (S & H & E).
      destruct (iteration clock ev buffer w) as [[[b|]|e] w']; cbn [fst snd] in *.
      * destruct (IH b w') as (S' & H' & E').
        split; [eapply streamed_trans; eassumption|]. split; [auto|].
        destruct (fst (stream clock rest b w')) as [[?|]|?]; auto.
      * auto.
      * auto.
    + cbn [fst snd]. split; [apply streamed_refl|]. auto.
Qed.

(** A zero-length read, after receives that keep the session going, leaves
    the loop with the disconnection shown. *)
Lemma stream_closed pre post buffer w :
  forallb keeps_streaming pre = true ->
  running (self w) = true ->
  exists w',
    streamed w w'
    /\ (history_ok clock w -> history_ok clock w')
    /\ stream clock (pre ++ Data EmptyString :: post) buffer w
       = (Ok None,
          mkWorld (self w') (ticks w')
                  (out w' ++ [Cell 18 16 (Status ServerDisconnected) 20])).
Proof.
  revert buffer w. induction pre as [|ev pre IH]; intros buffer w K R.
  - exists w. split; [apply streamed_refl|]. split; [trivial|].
    cbn [app]. rewrite stream_cons, R, iteration_closed. reflexivity.
  - cbn [forallb] in K. apply andb_prop in K. destruct K as [K1 K2].
    cbn [app]. rewrite stream_cons, R.
    destruct (iteration_inv ev buffer w) as (S & H & _).
    assert (C : exists b, fst (iteration clock ev buffer w) = Ok (Continue b)).
    { destruct ev as [d| | |]; cbn [keeps_streaming] in K1;
        try discriminate K1.
      - rewrite (iteration_data _ _ _ _ K1). eexists. reflexivity.
      - rewrite iteration_timeout. eexists. reflexivity. }
    destruct C as [b C].
    destruct (iteration clock ev buffer w) as [r w1]. cbn [fst snd] in *.
    subst r.
    assert (R1 : running (self w1) = true).
    { destruct S as (_ & _ & _ & R' & _). congruence. }
    destruct (IH b w1 K2 R1) as (w' & S' & H' & E).
    exists w'. split; [eapply streamed_trans; eassumption|].
    split; [auto|exact E].
Qed.

(** ** [run] *)

Lemma run_unreachable events h p :
  run clock false events (mkWorld (new_client h p) 0 [])
  = (Ok NotConnected,
     mkWorld (with_socket true (new_client h p)) 0 [Connecting; ConnectFailed]).
Proof. reflexivity. Qed.

Lemma run_unfold events h p :
  run clock true events (mkWorld (new_client h p) 0 []) =
  let (r, w) := stream clock events EmptyString (streaming_start clock h p) in
  match r with
  | Ok (Some buffer) => (Ok (StillStreaming buffer), w)
  | Ok None => bind (summary clock) (fun _ => ret Terminated) w
  | Raise KeyboardInterrupt =>
      bind (emit StoppedByUser)
           (fun _ => bind (summary clock) (fun _ => ret Terminated)) w
  | Raise e => bind (summary clock) (fun _ => raise e) w
  end.
Proof.
  unfold run.
  cbv [connect bind modify_self emit ret time_time attempt init_display
       get_self self ticks out negb new_client with_socket with_running
       with_start_time with_display_initialized display_initialized host port
       has_socket running data_count start_time rate_history app].
  fold (streaming_start clock h p).
  destruct (stream clock events EmptyString (streaming_start clock h p))
    as [[[b|]|e] w]; try reflexivity.
  destruct e; reflexivity.
Qed.

(** The [finally] block prints the four summary lines and disconnects. *)
Lemma summary_spec w t :
  start_time (self w) = Some t ->
  exists hz secs,
    summary clock w
    = (Ok tt,
       mkWorld (with_socket false (with_running false (self w)))
               (S (S (ticks w)))
               (out w ++ [SummaryHeader; SummaryTotal (data_count (self w));
                          SummaryAverage hz; SummaryDuration secs])).
Proof.
  intros T. unfold summary. do 4 step. rewrite T. step.
  unfold truediv. rewrite max_1_nonzero. repeat step.
  unfold disconnect. repeat step. unfold modify_self. cbn [self ticks out].
  rewrite <- !List.app_assoc. do 2 eexists. reflexivity.
Qed.

Lemma streaming_start_history_ok h p : history_ok clock (streaming_start clock h p).
Proof. split; reflexivity. Qed.

(** Every execution of [run] on a fresh client: it never raises; it ends
    not connected, or still streaming, or terminated with the summary
    printed after the streaming output (and after the interrupt notice, if
    any). *)
Lemma run_cases reachable events h p r w :
  run clock reachable events (mkWorld (new_client h p) 0 []) = (r, w) ->
  (reachable = false /\ r = Ok NotConnected
   /\ w = mkWorld (with_socket true (new_client h p)) 0
                  [Connecting; ConnectFailed])
  \/ (reachable = true /\
      exists w3,
        streamed (streaming_start clock h p) w3
        /\ history_ok clock w3
        /\ ((exists b, r = Ok (StillStreaming b) /\ w = w3)
            \/ (exists notice hz secs,
                  r = Ok Terminated
                  /\ (notice = [] \/ notice = [StoppedByUser])
                  /\ w = mkWorld
                           (with_socket false (with_running false (self w3)))
                           (S (S (ticks w3)))
                           (out w3 ++ notice
                            ++ [SummaryHeader;
                                SummaryTotal (data_count (self w3));
                                SummaryAverage hz; SummaryDuration secs])))).
Proof.
  intros RUN. destruct reachable.
  - rewrite run_unfold in RUN.
    destruct (stream_inv events EmptyString (streaming_start clock h p))
      as (S & H & E).
    specialize (H (streaming_start_history_ok h p)).
    destruct (stream clock events EmptyString (streaming_start clock h p))
      as [r3 w3]. cbn [fst snd] in *.
    assert (T : start_time (self w3) = Some (clock 0)).
    { destruct S as (_ & _ & _ & _ & T & _). exact T. }
    right. split; [reflexivity|]. exists w3. split; [exact S|]. split; [exact H|].
    destruct r3 as [[b|]|e].
    + left. exists b. split; congruence.
    + right. destruct (summary_spec w3 _ T) as (hz & secs & Q).
      unfold bind in RUN. rewrite Q in RUN. exists [], hz, secs.
      cbn [app]. unfold ret in RUN. repeat split; [congruence|auto|congruence].
    + subst e. right. rewrite bind_emit in RUN.
      destruct (summary_spec
                  (mkWorld (self w3) (ticks w3) (out w3 ++ [StoppedByUser]))
                  _ T) as (hz & secs & Q).
      unfold bind in RUN. rewrite Q in RUN. cbn [self ticks out] in RUN.
      exists [StoppedByUser], hz, secs.
      rewrite <- List.app_assoc in RUN. unfold ret in RUN.
      repeat split; [congruence|auto|congruence].
  - rewrite run_unreachable in RUN. left. repeat split; congruence.
Qed.

End Streaming.

(** ** Counting summaries *)

Lemma summaries_app o1 o2 : summaries (o1 ++ o2) = summaries o1 + summaries o2.
Proof. unfold summaries. now rewrite filter_app, length_app. Qed.

Lemma summaries_cells cells : forallb is_cell cells = true -> summaries cells = 0.
Proof.
  induction cells as [|o cells IH]; [reflexivity|].
  cbn [forallb]. intros H. apply andb_prop in H. destruct H as [H1 H2].
  destruct o; try discriminate H1. exact (IH H2).
Qed.

Lemma summaries_streamed clock h p w :
  streamed (streaming_start clock h p) w -> summaries (out w) = 0.
Proof.
  intros (_ & _ & _ & _ & _ & _ & _ & cells & O & C).
  rewrite O, summaries_app, (summaries_cells _ C). reflexivity.
Qed.

(** C7. The arrival history is a first-in-first-out sequence of at most 50
    timestamps.  An append to fewer than 50 entries adds the timestamp at
    the end; an append to 50 entries drops exactly the oldest and adds the
    timestamp at the end; the length never exceeds 50.  Every accepted
    record appends the time of its arrival.  After any execution of a
    session the history is the last 50 arrival timestamps of the records
    counted so far, in arrival order. *)
Theorem history_bounded_fifo (clock : nat -> spec_float) :
  maxlen = 50
  /\ (forall (history : list spec_float) (t : spec_float),
      (List.length history < maxlen ->
       deque_append history t = history ++ [t])
      /\ (List.length history = maxlen ->
          deque_append history t = tl history ++ [t])
      /\ (List.length history <= maxlen ->
          List.length (deque_append history t) <= maxlen))
  /\ (forall line d w,
      accepted line = Some d ->
      rate_history (self (snd (handle_line clock line w)))
      = deque_append (rate_history (self w)) (clock (ticks w)))
  /\ (forall reachable events h p,
      let w := snd (run clock reachable events (mkWorld (new_client h p) 0 [])) in
      rate_history (self w)
      = lastn maxlen (arrivals clock (data_count (self w)))
      /\ List.length (rate_history (self w)) <= maxlen).
Proof.
  split; [reflexivity|]. split; [|split].
  - intros history t.
    auto using @deque_append_short, @deque_append_full, @deque_append_length.
  - intros line d w A. rewrite handle_line_spec, A. cbn [snd].
    destruct (shown_spec clock d w (accepted_keys _ _ A)) as (_ & S & _).
    now rewrite S.
  - intros reachable events h p w.
    assert (H : rate_history (self w)
                = lastn maxlen (arrivals clock (data_count (self w)))).
    { subst w.
      destruct (run clock reachable events (mkWorld (new_client h p) 0 []))
        as [r w] eqn:RUN. cbn [snd].
      destruct (run_cases clock _ _ _ _ _ _ RUN)
        as [(_ & _ & ->)|(_ & w3 & _ & [_ H] & C)]; [reflexivity|].
      destruct C as [(b & _ & ->)|(n & hz & secs & _ & _ & ->)]; exact H. }
    split; [exact H|]. rewrite H. apply lastn_length.
Qed.

(** The theorem at a full history of fifty timestamps. *)
Lemma history_bounded_fifo_witness :
  deque_append (map of_int (map Z.of_nat (seq 1 50))) (of_int 51)
  = map of_int (map Z.of_nat (seq 2 49)) ++ [of_int 51].
Proof.
  apply (proj1 (proj2 (proj1 (proj2 (history_bounded_fifo (fun _ => fzero)))
                         (map of_int (map Z.of_nat (seq 1 50))) (of_int 51)))).
  reflexivity.
Defined.

(** C8. In a session on an established connection, a zero-length read
    (after receives that kept the session going) ends the loop: the status
    line shows the disconnection, the summary (header, total message
    count, average rate, duration) is printed exactly once, after all
    dashboard output, and the client is stopped with its socket released.
    In every execution whatever the socket delivers, [run] raises nothing
    and the summary is printed once if the session terminated and not at
    all otherwise: never more than once. *)
Theorem zero_length_read_terminates (clock : nat -> spec_float)
    (h : string) (p : Z) :
  (forall pre post,
      forallb keeps_streaming pre = true ->
      exists w cells hz secs,
        run clock true (pre ++ Data EmptyString :: post)
            (mkWorld (new_client h p) 0 [])
        = (Ok Terminated, w)
        /\ running (self w) = false
        /\ has_socket (self w) = false
        /\ out w
           = [Connecting; ConnectedBanner; Frame] ++ cells
             ++ [Cell 18 16 (Status ServerDisconnected) 20;
                 SummaryHeader; SummaryTotal (data_count (self w));
                 SummaryAverage hz; SummaryDuration secs]
        /\ forallb is_cell cells = true
        /\ summaries (out w) = 1)
  /\ (forall reachable events,
      let (r, w) :=
        run clock reachable events (mkWorld (new_client h p) 0 []) in
      match r with
      | Ok Terminated => summaries (out w) = 1 /\ running (self w) = false
      | Ok (StillStreaming _) =>
          summaries (out w) = 0 /\ running (self w) = true
      | Ok NotConnected => summaries (out w) = 0 /\ reachable = false
      | Raise _ => False
      end).
Proof.
  split.
  - intros pre post K.
    destruct (stream_closed clock pre post EmptyString
                (streaming_start clock h p) K eq_refl) as (w' & S & _ & E).
    rewrite run_unfold, E.
    pose proof S as (_ & _ & _ & _ & T & _ & _ & cells & O & C).
    destruct (summary_spec clock
                (mkWorld (self w') (ticks w')
                   (out w' ++ [Cell 18 16 (Status ServerDisconnected) 20]))
                _ T) as (hz & secs & Q).
    unfold bind. rewrite Q. cbn [self ticks out].
    eexists. exists cells, hz, secs.
    split; [reflexivity|]. cbn [self out running has_socket with_socket
      with_running data_count].
    split; [reflexivity|]. split; [reflexivity|].
    split; [rewrite O; cbn [streaming_start out];
            now rewrite <- !List.app_assoc|].
    split; [exact C|].
    rewrite !summaries_app, (summaries_streamed _ _ _ _ S). reflexivity.
  - intros reachable events.
    destruct (run clock reachable events (mkWorld (new_client h p) 0 []))
      as [r w] eqn:RUN.
    destruct (run_cases clock _ _ _ _ _ _ RUN)
      as [(R & -> & ->)|(_ & w3 & S & _ & C)]; [auto|].
    destruct C as [(b & -> & ->)|(n & hz & secs & -> & N & ->)].
    + split; [now apply (summaries_streamed clock h p)|].
      destruct S as (_ & _ & _ & R & _). exact R.
    + cbn [out self running with_socket with_running].
      rewrite !summaries_app, (summaries_streamed _ _ _ _ S).
      split; [|reflexivity]. destruct N as [-> | ->]; reflexivity.
Qed.

(** The theorem at a session of one record, one timeout and the close. *)
Lemma zero_length_read_witness :
  exists w cells hz secs,
    run (fun n => of_int (1700000000 + Z.of_nat n)) true
        ([Data "1,2,3,4,5,6"; TimedOut] ++ Data EmptyString :: [Data "7"])
        (mkWorld (new_client "127.0.0.1" 65432) 0 [])
    = (Ok Terminated, w)
    /\ running (self w) = false
    /\ has_socket (self w) = false
    /\ out w
       = [Connecting; ConnectedBanner; Frame] ++ cells
         ++ [Cell 18 16 (Status ServerDisconnected) 20;
             SummaryHeader; SummaryTotal (data_count (self w));
             SummaryAverage hz; SummaryDuration secs]
    /\ forallb is_cell cells = true
    /\ summaries (out w) = 1.
Proof.
  apply (proj1 (zero_length_read_terminates
                  (fun n => of_int (1700000000 + Z.of_nat n))
                  "127.0.0.1" 65432)).
  reflexivity.
Defined.

End SessionFacts.

(* ================================================================== *)
(** * Facts about [int] on strings *)
(* ================================================================== *)

Module IntFacts.
Import PyStr PyStrFacts PyNum.
Local Open Scope nat_scope.
Local Open Scope string_scope.

(** A fact about one character, by going through the 256 of them. *)
Ltac by_cases c :=
  destruct c as [[] [] [] [] [] [] [] []]; vm_compute; intros; congruence.

Lemma digit_not_underscore c :
  is_digit c = true -> Ascii.eqb c underscore = false.
Proof. by_cases c. Qed.

Lemma digit_not_sign c :
  is_digit c = true -> Ascii.eqb c "-" = false /\ Ascii.eqb c "+" = false.
Proof. intros H; split; revert H; by_cases c. Qed.

Lemma digit_not_space c : is_digit c = true -> is_int_space c = false.
Proof. by_cases c. Qed.

Lemma space_not_digit c : is_int_space c = true -> is_digit c = false.
Proof. by_cases c. Qed.

Lemma space_not_underscore c :
  is_int_space c = true -> Ascii.eqb c underscore = false.
Proof. by_cases c. Qed.

Lemma space_numeral c : is_int_space c = true -> numeral_char c = true.
Proof. by_cases c. Qed.

Lemma digit_numeral c : is_digit c = true -> numeral_char c = true.
Proof. by_cases c. Qed.

Lemma string_app_nil s : s ++ "" = s.
Proof. induction s as [|c r IH]; cbn; [reflexivity|now rewrite IH]. Qed.

Lemma count_chars_app f s t :
  count_chars f (s ++ t) = count_chars f s + count_chars f t.
Proof.
  induction s as [|c r IH]; cbn [append count_chars]; [reflexivity|].
  rewrite IH. lia.
Qed.

(** ** White space and sign *)

Lemma skip_int_space_app pre r :
  all_int_space pre = true -> skip_int_space (pre ++ r) = skip_int_space r.
Proof.
  induction pre as [|c p IH]; cbn [append all_int_space skip_int_space];
    [reflexivity|].
  intros H. apply andb_prop in H. destruct H as [H1 H2].
  rewrite H1. exact (IH H2).
Qed.

Lemma skip_int_space_split s :
  exists pre, s = pre ++ skip_int_space s /\ all_int_space pre = true.
Proof.
  induction s as [|c r (pre & E & A)]; [exists ""; now split|].
  cbn [skip_int_space]. destruct (is_int_space c) eqn:C.
  - exists (String c pre). cbn [append all_int_space].
    rewrite C, A. now rewrite <- E.
  - exists "". now split.
Qed.

Lemma take_sign_split t :
  exists sign,
    is_sign sign = true
    /\ t = sign ++ snd (take_sign t)
    /\ fst (take_sign t) = String.eqb sign "-".
Proof.
  destruct t as [|c r]; [exists ""; now repeat split|].
  cbn [take_sign].
  destruct (Ascii.eqb_spec c "-") as [->|N1];
    [exists "-"; now repeat split|].
  destruct (Ascii.eqb_spec c "+") as [->|N2];
    [exists "+"; now repeat split|].
  exists "". now repeat split.
Qed.

Lemma is_sign_cases sign :
  is_sign sign = true -> sign = "" \/ sign = "+" \/ sign = "-".
Proof.
  unfold is_sign. intros H.
  apply orb_prop in H. destruct H as [H|H].
  - apply orb_prop in H. destruct H as [H|H];
      apply String.eqb_eq in H; auto.
  - apply String.eqb_eq in H. auto.
Qed.

(** ** Digits and underscores *)

Lemma scan_digits_group g :
  all_digits g = true ->
  forall p k ds rest,
    (forall q, is_digit q = true -> scan_digits q k = Some (ds, rest)) ->
    nonempty g = true \/ is_digit p = true ->
    scan_digits p (g ++ k) = Some (g ++ ds, rest).
Proof.
  induction g as [|c g IH]; intros D p k ds rest K N.
  - destruct N as [N|N]; [discriminate N|]. exact (K p N).
  - cbn [all_digits] in D. apply andb_prop in D. destruct D as [D1 D2].
    cbn [append scan_digits].
    rewrite (digit_not_underscore c D1), D1.
    now rewrite (IH D2 c k ds rest K (or_intror D1)).
Qed.

Lemma scan_digits_post post q :
  all_int_space post = true -> is_digit q = true ->
  scan_digits q post = Some ("", post).
Proof.
  intros A Q. destruct post as [|d r]; cbn [scan_digits].
  - now rewrite (digit_not_underscore q Q).
  - cbn [all_int_space] in A. apply andb_prop in A. destruct A as [A _].
    now rewrite (space_not_underscore d A), (space_not_digit d A),
      (digit_not_underscore q Q).
Qed.

Lemma scan_digits_join groups :
  0 < List.length groups -> forallb digit_group groups = true ->
  forall post p,
    all_int_space post = true ->
    scan_digits p (join underscore groups ++ post)
    = Some (String.concat "" groups, post).
Proof.
  induction groups as [|g gs IH]; [cbn; lia|].
  intros _ G post p A.
  cbn [forallb] in G. apply andb_prop in G. destruct G as [G1 G2].
  unfold digit_group in G1. apply andb_prop in G1. destruct G1 as [N D].
  destruct gs as [|g2 gs].
  - cbn [join String.concat].
    rewrite (scan_digits_group g D p post "" post);
      [now rewrite string_app_nil | | now left].
    intros q Q. now apply scan_digits_post.
  - cbn [join String.concat]. rewrite string_app_assoc.
    cbn [append].
    apply (scan_digits_group g D); [|now left].
    intros q Q. cbn [scan_digits].
    rewrite (digit_not_underscore q Q). cbn [Ascii.eqb underscore].
    change (Ascii.eqb "_" underscore) with true. cbv iota.
    apply (IH ltac:(cbn; lia) G2 post underscore A).
Qed.

Lemma concat_nonempty groups :
  0 < List.length groups -> forallb digit_group groups = true ->
  exists c t, String.concat "" groups = String c t /\ is_digit c = true.
Proof.
  destruct groups as [|g gs]; [cbn; lia|]. intros _ G.
  cbn [forallb] in G. apply andb_prop in G. destruct G as [G1 _].
  unfold digit_group in G1. apply andb_prop in G1. destruct G1 as [N D].
  destruct g as [|c g]; [discriminate N|].
  cbn [all_digits] in D. apply andb_prop in D. destruct D as [D _].
  destruct gs; cbn [String.concat append]; eauto.
Qed.

Lemma join_head groups post :
  0 < List.length groups -> forallb digit_group groups = true ->
  exists c t, join underscore groups ++ post = String c t
              /\ is_digit c = true.
Proof.
  destruct groups as [|g gs]; [cbn; lia|]. intros _ G.
  cbn [forallb] in G. apply andb_prop in G. destruct G as [G1 _].
  unfold digit_group in G1. apply andb_prop in G1. destruct G1 as [N D].
  destruct g as [|c g]; [discriminate N|].
  cbn [all_digits] in D. apply andb_prop in D. destruct D as [D _].
  destruct gs; cbn [join append]; eauto.
Qed.

(** What [scan_digits] has read is a row of digit groups joined by
    underscores, after one underscore if it started between two groups. *)
Lemma scan_digits_shape s :
  forall prev ds rest,
    scan_digits prev s = Some (ds, rest) ->
    (ds = "" /\ s = rest /\ Ascii.eqb prev underscore = false)
    \/ exists groups,
        0 < List.length groups
        /\ forallb digit_group groups = true
        /\ ds = String.concat "" groups
        /\ (s = join underscore groups ++ rest
            \/ s = String underscore (join underscore groups ++ rest)
               /\ Ascii.eqb prev underscore = false).
Proof.
  induction s as [|c r IH]; intros prev ds rest H; cbn [scan_digits] in H.
  - destruct (Ascii.eqb prev underscore) eqn:P; [discriminate H|].
    left. now inversion H.
  - destruct (Ascii.eqb_spec c underscore) as [->|NU].
    + destruct (Ascii.eqb prev underscore) eqn:P; [discriminate H|].
      destruct (IH _ _ _ H) as [(_ & _ & C)|(groups & L & G & E & S)];
        [discriminate C|].
      right. exists groups. repeat (split; [assumption|]).
      destruct S as [->|[_ C]]; [now right | discriminate C].
    + destruct (is_digit c) eqn:D.
      * destruct (scan_digits c r) as [[ds' rest']|] eqn:R; [|discriminate H].
        inversion H; subst ds rest'. clear H.
        right.
        destruct (IH _ _ _ R) as [(-> & -> & _)|(groups & L & G & -> & S)].
        -- exists [String c ""].
           split; [cbn; lia|].
           split; [cbn [forallb digit_group nonempty all_digits];
                   unfold digit_group; cbn [nonempty all_digits];
                   now rewrite D|].
           split; [reflexivity|]. now left.
        -- destruct groups as [|g gs]; [cbn in L; lia|].
           assert (G' : forallb digit_group (String c g :: gs) = true).
           { cbn [forallb] in G |- *. apply andb_prop in G.
             destruct G as [G1 G2]. rewrite G2.
             unfold digit_group in G1 |- *.
             apply andb_prop in G1. destruct G1 as [_ G1].
             cbn [nonempty all_digits]. now rewrite D, G1. }
           assert (G'' : forallb digit_group (String c "" :: g :: gs) = true).
           { change (digit_group (String c "")
                     && forallb digit_group (g :: gs) = true).
             rewrite G. unfold digit_group. cbn [nonempty all_digits].
             now rewrite D. }
           destruct S as [->|[-> _]].
           ++ exists (String c g :: gs).
              split; [cbn; lia|]. split; [exact G'|].
              split; [destruct gs; reflexivity|].
              left. destruct gs; reflexivity.
           ++ exists (String c "" :: g :: gs).
              split; [cbn; lia|]. split; [exact G''|].
              split; [reflexivity|]. left. reflexivity.
      * destruct (Ascii.eqb prev underscore) eqn:P; [discriminate H|].
        left. now inversion H.
Qed.

(** ** [int] reads exactly the decimal numerals *)

(** Every decimal numeral is read, to its value. *)
Lemma py_int_accepts s v : decimal_numeral s v -> py_int s = Some v.
Proof.
  intros (pre & sign & groups & post & -> & A & SG & L & G & B & M & ->).
  unfold py_int. rewrite (skip_int_space_app pre _ A).
  destruct (join_head groups post L G) as (c & t & J & D).
  destruct (concat_nonempty groups L G) as (c' & t' & C & _).
  pose proof (scan_digits_join groups L G post Ascii.zero B) as SC.
  assert (T : take_sign (skip_int_space (sign ++ join underscore groups ++ post))
              = (String.eqb sign "-", join underscore groups ++ post)).
  { destruct (is_sign_cases sign SG) as [->|[->| ->]]; cbn [append].
    - rewrite J. cbn [skip_int_space]. rewrite (digit_not_space c D).
      cbn [take_sign]. destruct (digit_not_sign c D) as [-> ->]. reflexivity.
    - reflexivity.
    - reflexivity. }
  rewrite T. rewrite J in SC |- *.
  rewrite (digit_not_underscore c D), SC, C. cbn [nonempty andb].
  rewrite <- C, B.
  replace (String.length (String.concat "" groups) <=? max_str_digits)%nat
    with true by (symmetry; now apply Nat.leb_le).
  reflexivity.
Qed.

(** Nothing else is read. *)
Lemma py_int_numeral s v : py_int s = Some v -> decimal_numeral s v.
Proof.
  unfold py_int. intros H.
  destruct (skip_int_space_split s) as (pre & E & A).
  destruct (take_sign_split (skip_int_space s)) as (sign & SG & T & N).
  destruct (take_sign (skip_int_space s)) as [neg r]. cbn [fst snd] in T, N.
  destruct r as [|c r]; [discriminate H|].
  destruct (Ascii.eqb c underscore) eqn:U; [discriminate H|].
  destruct (scan_digits Ascii.zero (String c r)) as [[ds rest]|] eqn:SC;
    [|discriminate H].
  destruct (nonempty ds) eqn:NE; [|discriminate H].
  destruct (String.length ds <=? max_str_digits)%nat eqn:M;
    [|discriminate H].
  destruct (all_int_space rest) eqn:B; [|discriminate H].
  cbn [andb] in H. inversion H as [V]. clear H.
  destruct (scan_digits_shape _ _ _ _ SC)
    as [(-> & _)|(groups & L & G & -> & S)]; [discriminate NE|].
  destruct S as [S|[S _]];
    [|injection S as C _; rewrite C in U; discriminate U].
  exists pre, sign, groups, rest.
  split; [rewrite <- S, <- T; exact E|].
  split; [exact A|]. split; [exact SG|]. split; [exact L|].
  split; [exact G|]. split; [exact B|].
  split; [now apply Nat.leb_le|]. now rewrite <- N.
Qed.

(** ** The characters of a numeral *)

Lemma digits_counts g :
  all_digits g = true ->
  count_chars is_digit g = String.length g
  /\ count_chars (fun c => negb (numeral_char c)) g = 0.
Proof.
  induction g as [|c g IH]; [now split|].
  cbn [all_digits count_chars String.length]. intros D.
  apply andb_prop in D. destruct D as [D1 D2].
  destruct (IH D2) as [I1 I2].
  rewrite D1, (digit_numeral c D1), I1, I2. now split.
Qed.

Lemma space_counts p :
  all_int_space p = true ->
  count_chars is_digit p = 0
  /\ count_chars (fun c => negb (numeral_char c)) p = 0.
Proof.
  induction p as [|c p IH]; [now split|].
  cbn [all_int_space count_chars]. intros A.
  apply andb_prop in A. destruct A as [A1 A2].
  destruct (IH A2) as [I1 I2].
  rewrite (space_not_digit c A1), (space_numeral c A1), I1, I2. now split.
Qed.

Lemma join_counts groups :
  forallb digit_group groups = true ->
  count_chars is_digit (join underscore groups)
  = String.length (String.concat "" groups)
  /\ count_chars (fun c => negb (numeral_char c)) (join underscore groups) = 0.
Proof.
  induction groups as [|g gs IH]; [now split|].
  cbn [forallb]. intros G. apply andb_prop in G. destruct G as [G1 G2].
  unfold digit_group in G1. apply andb_prop in G1. destruct G1 as [_ D].
  destruct (digits_counts g D) as [D1 D2].
  destruct gs as [|g2 gs]; [now split|].
  destruct (IH G2) as [I1 I2].
  change (join underscore (g :: g2 :: gs))
    with (g ++ String underscore (join underscore (g2 :: gs))).
  change (String.concat "" (g :: g2 :: gs))
    with (g ++ String.concat "" (g2 :: gs)).
  assert (U1 : is_digit underscore = false) by reflexivity.
  assert (U2 : negb (numeral_char underscore) = false) by reflexivity.
  rewrite !count_chars_app, string_length_app. cbn [count_chars].
  rewrite U1, U2, D1, D2, I1, I2. now split.
Qed.

(** A numeral holds numeral characters only, and between one and
    [max_str_digits] digits. *)
Lemma numeral_counts s v :
  decimal_numeral s v ->
  count_chars (fun c => negb (numeral_char c)) s = 0
  /\ 1 <= count_chars is_digit s <= max_str_digits.
Proof.
  intros (pre & sign & groups & post & -> & A & SG & L & G & B & M & _).
  destruct (space_counts pre A) as [A1 A2].
  destruct (space_counts post B) as [B1 B2].
  destruct (join_counts groups G) as [J1 J2].
  destruct (concat_nonempty groups L G) as (c & t & C & _).
  assert (S1 : count_chars is_digit sign = 0
               /\ count_chars (fun c => negb (numeral_char c)) sign = 0)
    by (destruct (is_sign_cases sign SG) as [->|[->| ->]]; now split).
  destruct S1 as [S1 S2].
  rewrite !count_chars_app, A1, A2, B1, B2, J1, J2, S1, S2.
  split; [reflexivity|]. rewrite C in M |- *. cbn [String.length] in *. lia.
Qed.

End IntFacts.

(* ================================================================== *)
(** * The command line: [main] *)
(* ================================================================== *)

Module MainFacts.
Import PyStr PyNum Client IntFacts.
Local Open Scope nat_scope.

(** C9. [main] takes an optional host and an optional port.  Without a
    host argument the host is the loopback address 127.0.0.1; without a
    port argument the port is 65432.  When the port argument does not
    parse as an integer ([int] raises [ValueError]), [main] prints the
    complaint and exits with code 1 at once: no client is created and
    nothing is run.  Otherwise the client is created with the given host
    and the parsed port, and run.  The port arguments that parse are
    exactly the decimal numerals: white space, an optional sign, groups of
    digits joined by single underscores with at most 4300 digits in all,
    white space; the port is the value of the digits with that sign.  In
    particular a port argument that holds any other character, or no
    digit, or more than 4300 digits ends [main] with code 1. *)
Theorem main_arguments (clock : nat -> spec_float) (reachable : bool)
    (events : list recv_event) (argv : list string) :
  (List.length argv <= 1 ->
   main clock argv reachable events
   = start_client clock reachable events "127.0.0.1" 65432)
  /\ (List.length argv = 2 ->
      main clock argv reachable events
      = start_client clock reachable events (nth 1 argv EmptyString) 65432)
  /\ (3 <= List.length argv ->
      py_int (nth 2 argv EmptyString) = None ->
      main clock argv reachable events
      = SysExit 1 [Starting; InvalidPort (nth 2 argv EmptyString)])
  /\ (3 <= List.length argv ->
      forall port, py_int (nth 2 argv EmptyString) = Some port ->
      main clock argv reachable events
      = start_client clock reachable events (nth 1 argv EmptyString) port)
  /\ (3 <= List.length argv ->
      forall port, decimal_numeral (nth 2 argv EmptyString) port ->
      main clock argv reachable events
      = start_client clock reachable events (nth 1 argv EmptyString) port)
  /\ (3 <= List.length argv ->
      (forall port, ~ decimal_numeral (nth 2 argv EmptyString) port) ->
      main clock argv reachable events
      = SysExit 1 [Starting; InvalidPort (nth 2 argv EmptyString)])
  /\ (3 <= List.length argv ->
      count_chars (fun c => negb (numeral_char c)) (nth 2 argv EmptyString)
      <> 0
      \/ count_chars is_digit (nth 2 argv EmptyString) = 0
      \/ max_str_digits < count_chars is_digit (nth 2 argv EmptyString) ->
      main clock argv reachable events
      = SysExit 1 [Starting; InvalidPort (nth 2 argv EmptyString)]).
Proof.
  assert (EXIT : 3 <= List.length argv ->
                 py_int (nth 2 argv EmptyString) = None ->
                 main clock argv reachable events
                 = SysExit 1 [Starting; InvalidPort (nth 2 argv EmptyString)]).
  { intros L P. unfold main.
    replace (3 <=? List.length argv) with true
      by (symmetry; apply Nat.leb_le; lia).
    now rewrite P. }
  assert (START : 3 <= List.length argv ->
                  forall port, py_int (nth 2 argv EmptyString) = Some port ->
                  main clock argv reachable events
                  = start_client clock reachable events
                      (nth 1 argv EmptyString) port).
  { intros L port P. unfold main.
    replace (2 <=? List.length argv) with true
      by (symmetry; apply Nat.leb_le; lia).
    replace (3 <=? List.length argv) with true
      by (symmetry; apply Nat.leb_le; lia).
    rewrite P. now rewrite (nth_indep argv "127.0.0.1" EmptyString) by lia. }
  split; [|split; [|split; [|split; [|split; [|split]]]]].
  - intros L. unfold main.
    replace (2 <=? List.length argv) with false
      by (symmetry; apply Nat.leb_gt; lia).
    replace (3 <=? List.length argv) with false
      by (symmetry; apply Nat.leb_gt; lia).
    reflexivity.
  - intros L. unfold main. rewrite L. cbn [Nat.leb].
    now rewrite (nth_indep argv "127.0.0.1" EmptyString) by lia.
  - exact EXIT.
  - exact START.
  - intros L port N. apply (START L). now apply py_int_accepts.
  - intros L N. apply (EXIT L).
    destruct (py_int (nth 2 argv EmptyString)) as [port|] eqn:P;
      [|reflexivity].
    destruct (N port). now apply py_int_numeral.
  - intros L C. apply (EXIT L).
    destruct (py_int (nth 2 argv EmptyString)) as [port|] eqn:P;
      [|reflexivity].
    destruct (numeral_counts _ _ (py_int_numeral _ _ P)) as [C1 C2].
    destruct C as [C|[C|C]]; [congruence | lia | lia].
Qed.

(** The theorem at a port argument that starts with the character 0x1C,
    which [str.strip] removes but [int] does not skip, and at a port
    argument written with white space, a sign and an underscore. *)
Lemma main_arguments_witness :
  main (fun _ => fzero)
       ["siphog_client.py"; "localhost"; String (ascii_of_N 28) "80"] true
       [Data "1,2,3,4,5,6"]
  = SysExit 1 [Starting; InvalidPort (String (ascii_of_N 28) "80")]
  /\ main (fun _ => fzero) ["siphog_client.py"; "localhost"; " +8_080 "] true
       [Data "1,2,3,4,5,6"]
     = start_client (fun _ => fzero) true [Data "1,2,3,4,5,6"]
         "localhost" 8080.
Proof.
  split.
  - apply (proj2 (proj2 (proj2 (proj2 (proj2 (proj2
             (main_arguments (fun _ => fzero) true [Data "1,2,3,4,5,6"]
                ["siphog_client.py"; "localhost";
                 String (ascii_of_N 28) "80"])))))));
      [simpl; lia | left; vm_compute; lia].
  - apply (proj1 (proj2 (proj2 (proj2 (proj2
             (main_arguments (fun _ => fzero) true [Data "1,2,3,4,5,6"]
                ["siphog_client.py"; "localhost"; " +8_080 "]))))));
      [simpl; lia|].
    exists " ", "+", ["8"; "080"], " ".
    repeat (split; [first [reflexivity | unfold max_str_digits; simpl; lia]|]).
    reflexivity.
Defined.

End MainFacts.

(* ================================================================== *)
(** * Further properties of the record parser *)
(* ================================================================== *)

Module StreamFacts.
Import PyStr PyStrFacts PyNum Framing FramingFacts Client Coverage.
Import ParserFacts LoopFacts.

Lemma contains_app c s t : contains c (s ++ t) = contains c s || contains c t.
Proof.
  induction s as [|d r IH]; simpl; [reflexivity|].
  rewrite IH. now rewrite orb_assoc.
Qed.

Lemma split_once_app sep a b :
  contains sep a = false -> split_once sep (a ++ String sep b) = (a, b).
Proof.
  induction a as [|c r IH]; simpl; intros H.
  - now rewrite Ascii.eqb_refl.
  - destruct (Ascii.eqb c sep); [discriminate|]. simpl in H.
    now rewrite (IH H).
Qed.

Lemma extract_step_line line rest :
  contains newline line = false ->
  extract_step (line ++ String newline rest) = Some (line, rest).
Proof.
  intros H. rewrite extract_step_newline.
  - now rewrite split_once_app.
  - rewrite contains_app. cbn [contains]. rewrite Ascii.eqb_refl.
    now rewrite orb_true_r.
Qed.

Lemma extract_step_pending buffer : extract_step buffer = None <-> pending buffer.
Proof.
  unfold pending. split.
  - intros E. destruct (contains newline buffer) eqn:N.
    + rewrite (extract_step_newline _ N) in E. discriminate.
    + split; [reflexivity|]. rewrite (extract_step_commas _ N) in E.
      destruct (6 <=? List.length (split comma buffer))%nat eqn:L;
        [discriminate|]. now apply Nat.leb_gt in L.
  - intros [N L]. rewrite (extract_step_commas _ N).
    apply Nat.leb_gt in L. now rewrite L.
Qed.

Lemma records_pending buffer : pending buffer -> records buffer = ([], buffer).
Proof.
  intros P. apply extract_step_pending in P.
  rewrite records_step. now rewrite P.
Qed.

Lemma records_lines ls :
  Forall (fun l => contains newline l = false) ls ->
  records (lines_stream ls) = (accepted_all ls, EmptyString).
Proof.
  induction ls as [|l ls IH]; intros F.
  - reflexivity.
  - inversion F as [|? ? N Fs]; subst. cbn [lines_stream accepted_all].
    rewrite records_step, (extract_step_line _ _ N), (IH Fs). cbn [fst snd].
    now destruct (accepted l).
Qed.

Section Stream.
Variable clock : nat -> spec_float.

(** X1. For a stream made of lines that each end with a newline, the
    receive loop yields exactly the records of the lines that are accepted,
    in the order of the lines, displays each of them once, and leaves the
    buffer empty; it never yields more records than there are lines. *)
Theorem newline_stream_records (ls : list string) (w : world) :
  Forall (fun l => contains newline l = false) ls ->
  records (lines_stream ls) = (accepted_all ls, EmptyString)
  /\ process_messages clock (S (String.length (lines_stream ls)))
       (lines_stream ls) w
     = (Ok EmptyString,
        fold_left (fun w d => shown clock d w) (accepted_all ls) w)
  /\ List.length (accepted_all ls) <= List.length ls.
Proof.
  intros F. pose proof (records_lines ls F) as R.
  split; [exact R|]. split.
  - rewrite process_messages_spec. fold (records (lines_stream ls)).
    now rewrite R.
  - clear. induction ls as [|l ls IH]; simpl; [lia|].
    destruct (accepted l); simpl; lia.
Qed.

End Stream.

Lemma newline_stream_records_witness :
  exists d1 d2,
    records (lines_stream ["1,2,3,4,5,6"; "garbage"; " 7,8,9,10,11,12 "])
    = ([d1; d2], EmptyString).
Proof.
  destruct (newline_stream_records (fun _ => fzero)
              ["1,2,3,4,5,6"; "garbage"; " 7,8,9,10,11,12 "]
              (mkWorld (new_client "127.0.0.1" 65432) 1 [])) as [R _].
  - repeat constructor.
  - rewrite R. do 2 eexists. vm_compute. reflexivity.
Defined.

(** ** What the loop leaves in the buffer *)

Lemma records_left_pending buffer : pending (snd (records buffer)).
Proof. apply extract_step_pending, records_done. Qed.

Lemma pending_empty : pending EmptyString.
Proof. split; [reflexivity|simpl; lia]. Qed.

Section Buffer.
Variable clock : nat -> spec_float.

Lemma iteration_buffer ev buffer w b w' :
  iteration clock ev buffer w = (Ok (Continue b), w') ->
  pending buffer -> pending b.
Proof.
  destruct ev as [d| | |].
  - destruct d as [|c d].
    + rewrite iteration_closed. discriminate.
    + rewrite iteration_data by reflexivity. intros E _.
      assert (B : b = snd (records (buffer ++ String c d))) by congruence.
      subst b. apply records_left_pending.
  - rewrite iteration_timeout. intros E P. congruence.
  - rewrite iteration_failed. discriminate.
  - rewrite iteration_interrupted. discriminate.
Qed.

Lemma stream_buffer events buffer w b w' :
  stream clock events buffer w = (Ok (Some b), w') ->
  pending buffer -> pending b.
Proof.
  revert buffer w. induction events as [|ev rest IH]; intros buffer w.
  - rewrite SessionFacts.stream_nil. intros E P.
    destruct (running (self w)); congruence.
  - rewrite SessionFacts.stream_cons.
    destruct (running (self w)); [|discriminate].
    destruct (iteration clock ev buffer w) as [[[b1|]|e] w1] eqn:I;
      try discriminate.
    intros E P. apply (IH b1 w1 E).
    exact (iteration_buffer _ _ _ _ _ I P).
Qed.

(** X2. What the inner loop leaves in the buffer holds no newline and
    fewer than six comma-separated tokens, and running the loop on it again
    extracts nothing.  The same holds for the buffer of every session that
    is still streaming. *)
Theorem buffer_stays_pending :
  (forall buffer w,
      pending (snd (records buffer))
      /\ fst (process_messages clock (S (String.length buffer)) buffer w)
         = Ok (snd (records buffer))
      /\ records (snd (records buffer)) = ([], snd (records buffer)))
  /\ (forall reachable events h p b w,
      run clock reachable events (mkWorld (new_client h p) 0 [])
      = (Ok (StillStreaming b), w) ->
      pending b).
Proof.
  split.
  - intros buffer w. split; [apply records_left_pending|]. split.
    + now rewrite process_messages_spec.
    + apply records_pending, records_left_pending.
  - intros reachable events h p b w RUN. destruct reachable.
    + rewrite SessionFacts.run_unfold in RUN.
      destruct (stream clock events EmptyString
                  (Invariants.streaming_start clock h p))
        as [[[b1|]|e] w1] eqn:E.
      * assert (B : b1 = b) by congruence. subst b1.
        exact (stream_buffer _ _ _ _ _ E pending_empty).
      * exfalso. revert RUN. unfold bind.
        destruct (summary clock w1) as [[[]|e] w2]; discriminate.
      * exfalso. revert RUN. destruct e; unfold bind;
          try (destruct (summary clock w1) as [[[]|e] w2]; discriminate).
        cbn [emit].
        destruct (summary clock _) as [[[]|e] w2]; discriminate.
    + rewrite SessionFacts.run_unreachable in RUN. discriminate.
Qed.

(** X3. A chunk after which the buffer holds no newline and fewer than six
    tokens causes no display and stays in the buffer, and the session goes
    on exactly as if that chunk and the next one had arrived as one. *)
Theorem pending_chunk_merges (c1 c2 : string) (rest : list recv_event)
    (buffer : string) (w : world) :
  nonempty c1 = true -> nonempty c2 = true ->
  pending (buffer ++ c1) ->
  iteration clock (Data c1) buffer w = (Ok (Continue (buffer ++ c1)), w)
  /\ stream clock (Data c1 :: Data c2 :: rest) buffer w
     = stream clock (Data (c1 ++ c2) :: rest) buffer w.
Proof.
  intros N1 N2 P.
  assert (I : iteration clock (Data c1) buffer w
              = (Ok (Continue (buffer ++ c1)), w)).
  { rewrite (iteration_data _ _ _ _ N1), (records_pending _ P). reflexivity. }
  split; [exact I|].
  rewrite (SessionFacts.stream_cons _ (Data c1)),
    (SessionFacts.stream_cons _ (Data (c1 ++ c2))), I.
  destruct (running (self w)) eqn:R; [|reflexivity].
  cbv iota beta. rewrite SessionFacts.stream_cons, R.
  assert (N : nonempty (c1 ++ c2) = true)
    by (destruct c1; [discriminate|reflexivity]).
  rewrite (iteration_data _ _ _ _ N2), (iteration_data _ _ _ _ N).
  now rewrite string_app_assoc.
Qed.

End Buffer.

Lemma buffer_stays_pending_witness :
  pending "7,8".
Proof.
  apply (proj2 (buffer_stays_pending (fun _ => fzero)) true
           [Data "1,2,3,4,5,6,7,8"] "127.0.0.1" 65432%Z "7,8"
           (snd (run (fun _ => fzero) true [Data "1,2,3,4,5,6,7,8"]
                   (mkWorld (new_client "127.0.0.1" 65432) 0 [])))).
  vm_compute. reflexivity.
Defined.

Lemma pending_chunk_merges_witness :
  stream (fun _ => fzero) [Data "1,2,3"; Data ",4,5,6,7"] "0.5"
    (Invariants.streaming_start (fun _ => fzero) "127.0.0.1" 65432)
  = stream (fun _ => fzero) [Data "1,2,3,4,5,6,7"] "0.5"
      (Invariants.streaming_start (fun _ => fzero) "127.0.0.1" 65432).
Proof.
  apply (pending_chunk_merges (fun _ => fzero) "1,2,3" ",4,5,6,7" [] "0.5");
    [reflexivity | reflexivity | split; [reflexivity | simpl; lia]].
Defined.

(** ** Bare-comma framing *)

Lemma contains_join c sep l :
  Ascii.eqb sep c = false ->
  Forall (fun t => contains c t = false) l ->
  contains c (join sep l) = false.
Proof.
  intros S. induction l as [|t ts IH]; intros F; [reflexivity|].
  inversion F as [|? ? Ht Hts]; subst.
  destruct ts as [|u us]; [exact Ht|].
  change (join sep (t :: u :: us))
    with (t ++ String sep (join sep (u :: us)))%string.
  rewrite contains_app, Ht. cbn [contains orb]. rewrite S. cbn [orb].
  now apply IH.
Qed.

Lemma records_empty : records EmptyString = ([], EmptyString).
Proof. reflexivity. Qed.

Lemma records_tokens fuel tokens :
  List.length tokens <= fuel ->
  Forall (fun t => contains comma t = false) tokens ->
  Forall (fun t => contains newline t = false) tokens ->
  records (join comma tokens)
  = (accepted_all (map (join comma) (fst (groups_of_six fuel tokens))),
     join comma (snd (groups_of_six fuel tokens))).
Proof.
  revert tokens. induction fuel as [|fuel IH]; intros tokens L FC FN.
  - destruct tokens; [reflexivity|simpl in L; lia].
  - destruct tokens as [|t ts]; [reflexivity|].
    set (l := t :: ts) in *.
    assert (NE : l <> []) by discriminate.
    assert (N : contains newline (join comma l) = false)
      by (apply contains_join; [reflexivity|exact FN]).
    rewrite records_step, (extract_step_commas _ N), (split_join _ _ NE FC).
    cbn [groups_of_six].
    destruct (6 <=? List.length l)%nat eqn:L6; [|reflexivity].
    apply Nat.leb_le in L6.
    rewrite <- (firstn_skipn 6 l) in FC, FN.
    apply Forall_app in FC. apply Forall_app in FN.
    rewrite (IH (skipn 6 l)); [| rewrite length_skipn; lia | tauto | tauto].
    destruct (groups_of_six fuel (skipn 6 l)) as [gs left].
    cbn [fst snd map accepted_all].
    now destruct (accepted (join comma (firstn 6 l))).
Qed.

(** X4. A stream of comma-separated tokens without any newline is cut from
    the left into groups of six tokens; each group is one candidate record,
    in order, and the fewer than six tokens left over stay in the buffer,
    joined by commas.  No token is lost or reordered. *)
Theorem comma_stream_records (tokens : list string) :
  Forall (fun t => contains comma t = false) tokens ->
  Forall (fun t => contains newline t = false) tokens ->
  let (groups, left) := groups_of_six (List.length tokens) tokens in
  records (join comma tokens)
  = (accepted_all (map (join comma) groups), join comma left)
  /\ Forall (fun g => List.length g = 6) groups
  /\ List.length left < 6
  /\ List.concat groups ++ left = tokens.
Proof.
  intros FC FN.
  pose proof (records_tokens (List.length tokens) tokens (le_n _) FC FN) as R.
  assert (G : forall fuel ts,
             List.length ts <= fuel ->
             Forall (fun g => List.length g = 6) (fst (groups_of_six fuel ts))
             /\ List.length (snd (groups_of_six fuel ts)) < 6
             /\ List.concat (fst (groups_of_six fuel ts))
                ++ snd (groups_of_six fuel ts) = ts).
  { clear. induction fuel as [|fuel IH]; intros ts L.
    - destruct ts; [|simpl in L; lia]. cbn. repeat split; [constructor|lia].
    - cbn [groups_of_six].
      destruct (6 <=? List.length ts)%nat eqn:L6.
      + apply Nat.leb_le in L6.
        destruct (IH (skipn 6 ts)) as (A & B & C);
          [rewrite length_skipn; lia|].
        destruct (groups_of_six fuel (skipn 6 ts)) as [gs left].
        cbn [fst snd List.concat] in *. split; [|split].
        * constructor; [rewrite length_firstn; lia|exact A].
        * exact B.
        * rewrite <- List.app_assoc, C. apply firstn_skipn.
      + apply Nat.leb_gt in L6. cbn. repeat split; [constructor|lia]. }
  specialize (G (List.length tokens) tokens (le_n _)).
  destruct (groups_of_six (List.length tokens) tokens) as [groups left].
  cbn [fst snd] in *. tauto.
Qed.

Lemma comma_stream_records_witness :
  exists d1 d2,
    records "1,2,3,4,5,6,7,8,9,10,11,12,13,14" = ([d1; d2], "13,14").
Proof.
  pose proof (comma_stream_records
                ["1";"2";"3";"4";"5";"6";"7";"8";"9";"10";"11";"12";"13";"14"])
    as H.
  assert (FC : Forall (fun t => contains comma t = false)
                 ["1";"2";"3";"4";"5";"6";"7";"8";"9";"10";"11";"12";"13";"14"])
    by repeat constructor.
  assert (FN : Forall (fun t => contains newline t = false)
                 ["1";"2";"3";"4";"5";"6";"7";"8";"9";"10";"11";"12";"13";"14"])
    by repeat constructor.
  specialize (H FC FN). vm_compute in H. destruct H as [R _].
  do 2 eexists. vm_compute. exact R.
Defined.

(** ** White space around a candidate line *)

Lemma lstrip_spaces p s : all_space p = true -> lstrip (p ++ s) = lstrip s.
Proof.
  induction p as [|c r IH]; simpl; [reflexivity|].
  intros H. apply andb_prop in H. destruct H as [H1 H2].
  rewrite H1. now apply IH.
Qed.

Lemma rstrip_spaces q : all_space q = true -> rstrip q = EmptyString.
Proof.
  induction q as [|c r IH]; simpl; [reflexivity|].
  intros H. apply andb_prop in H. destruct H as [H1 H2].
  now rewrite (IH H2), H1.
Qed.

Lemma rstrip_app_spaces s q : all_space q = true -> rstrip (s ++ q) = rstrip s.
Proof.
  intros Q. induction s as [|c r IH].
  - now apply rstrip_spaces.
  - cbn [append rstrip]. now rewrite IH.
Qed.

Lemma lstrip_all_space q : all_space q = true -> lstrip q = EmptyString.
Proof.
  induction q as [|c r IH]; simpl; [reflexivity|].
  intros H. apply andb_prop in H. destruct H as [H1 H2].
  rewrite H1. now apply IH.
Qed.

Lemma strip_app_spaces s q : all_space q = true -> strip (s ++ q) = strip s.
Proof.
  intros Q. unfold strip. induction s as [|c r IH].
  - cbn [append lstrip]. now rewrite (lstrip_all_space _ Q).
  - cbn [append lstrip]. destruct (isspace c); [exact IH|].
    apply (rstrip_app_spaces (String c r) q Q).
Qed.

Lemma strip_padded p s q :
  all_space p = true -> all_space q = true -> strip (p ++ s ++ q) = strip s.
Proof.
  intros P Q. unfold strip at 1. rewrite (lstrip_spaces _ _ P).
  apply (strip_app_spaces s q Q).
Qed.

Lemma accepted_strip line : accepted (strip line) = accepted line.
Proof. unfold accepted. now rewrite strip_idem. Qed.

(** X5. White space (blanks, tabs, carriage returns) before and after a
    candidate line changes neither whether it is accepted nor the record it
    gives nor what is displayed, and [parse_data] ignores it too; a line of
    white space only gives no record. *)
Theorem padding_ignored (clock : nat -> spec_float) (p line q : string) :
  all_space p = true -> all_space q = true ->
  accepted (p ++ line ++ q) = accepted line
  /\ handle_line clock (p ++ line ++ q) = handle_line clock line
  /\ parse_data (p ++ line ++ q) = parse_data line
  /\ (all_space line = true -> accepted line = None).
Proof.
  intros P Q. pose proof (strip_padded p line q P Q) as S.
  assert (A : accepted (p ++ line ++ q) = accepted line).
  { rewrite <- (accepted_strip (p ++ line ++ q)), S. apply accepted_strip. }
  split; [exact A|]. split; [now rewrite !handle_line_accepted, A|].
  split; [unfold parse_data; now rewrite S|].
  intros L. unfold accepted, strip.
  now rewrite (lstrip_all_space _ L).
Qed.

Lemma padding_ignored_witness :
  accepted ((" " ++ String "009" "") ++ "1,2,3,4,5,6" ++ String "013" "")
  = accepted "1,2,3,4,5,6".
Proof.
  apply (padding_ignored (fun _ => fzero)); reflexivity.
Defined.

End StreamFacts.

(* ================================================================== *)
(** * Further properties of the rate and the display *)
(* ================================================================== *)

Module DisplayFacts.
Import PyStr PyStrFacts PyNum Framing Client Invariants Coverage.
Import ParserFacts RateFacts LoopFacts.

(** ** The sign of a rounded quotient *)

Local Open Scope Z_scope.

Lemma shr_1_nonneg mrs : 0 <= shr_m mrs -> 0 <= shr_m (shr_1 mrs).
Proof.
  destruct mrs as [m r s]. destruct m as [|p|p]; cbn; try lia;
    destruct p; cbn; lia.
Qed.

Lemma iter_shr_1_nonneg p mrs :
  0 <= shr_m mrs -> 0 <= shr_m (iter_pos shr_1 p mrs).
Proof.
  revert mrs. induction p as [p IH|p IH|]; intros mrs H; cbn [iter_pos].
  - apply IH, IH, shr_1_nonneg, H.
  - apply IH, IH, H.
  - apply shr_1_nonneg, H.
Qed.

Lemma shr_fexp_nonneg m e l :
  0 <= m -> 0 <= shr_m (fst (shr_fexp prec emax m e l)).
Proof.
  intros H. unfold shr_fexp, shr.
  assert (R : 0 <= shr_m (shr_record_of_loc m l))
    by (destruct l as [|[]]; exact H).
  destruct (fexp prec emax (Zdigits2 m + e) - e) as [|p|p]; cbn [fst];
    [exact R|now apply iter_shr_1_nonneg|exact R].
Qed.

Lemma round_nearest_even_nonneg m l : 0 <= m -> 0 <= round_nearest_even m l.
Proof.
  intros H. destruct l as [|[]]; cbn [round_nearest_even]; try lia.
  destruct (Z.even m); lia.
Qed.

Lemma binary_round_aux_nonneg m e l :
  0 <= m -> nonneg_number (binary_round_aux prec emax false m e l) = true.
Proof.
  intros H. unfold binary_round_aux.
  pose proof (shr_fexp_nonneg m e l H) as H1.
  destruct (shr_fexp prec emax m e l) as [mrs' e']. cbn [fst] in H1.
  pose proof (shr_fexp_nonneg _ e' loc_Exact
                (round_nearest_even_nonneg _ (loc_of_shr_record mrs') H1)) as H2.
  destruct (shr_fexp prec emax
              (round_nearest_even (shr_m mrs') (loc_of_shr_record mrs'))
              e' loc_Exact) as [mrs'' e''].
  cbn [fst] in H2. destruct (shr_m mrs'') as [|p|p]; [reflexivity| |lia].
  destruct (e'' <=? emax - prec); reflexivity.
Qed.

Lemma fdiv_nonneg m1 e1 y :
  fgt y fzero = true ->
  nonneg_number (fdiv (S754_finite false m1 e1) y) = true.
Proof.
  destruct y as [s|s| |s m2 e2]; try discriminate.
  - destruct s; [discriminate|reflexivity].
  - destruct s; [discriminate|]. intros _.
    unfold fdiv, SFdiv.
    destruct (SFdiv_core_binary prec emax (Z.pos m1) e1 (Z.pos m2) e2)
      as [[q e'] l] eqn:D.
    cbn [xorb]. apply binary_round_aux_nonneg.
    unfold SFdiv_core_binary in D.
    set (s := (e1 - e2 - Z.min (fexp prec emax (Zdigits2 (Z.pos m1) + e1 - (Zdigits2 (Z.pos m2) + e2))) (e1 - e2))) in D.
    set (m' := match s with
               | Z0 => Z.pos m1 | Zpos _ => Z.shiftl (Z.pos m1) s | Zneg _ => 0
               end) in D.
    assert (M : 0 <= m').
    { unfold m'. destruct s; [lia| |lia]. apply Z.shiftl_nonneg. lia. }
    pose proof (Z.div_pos m' (Z.pos m2) M ltac:(lia)) as Q.
    unfold Z.div in Q.
    destruct (Z.div_eucl m' (Z.pos m2)) as [q' r']. 
    assert (q = q') by congruence. subst. exact Q.
Qed.

Lemma small_counts_finite :
  forallb
    (fun n : nat =>
       match of_int (Z.of_nat n) with
       | S754_finite false _ _ => true
       | _ => false
       end)
    (seq 1 (Client.maxlen - 1)) = true.
Proof. vm_compute. reflexivity. Qed.

Local Close Scope Z_scope.

Lemma calculate_rate_nonneg h :
  List.length h <= maxlen ->
  exists r, calculate_rate h = Ok r /\ nonneg_number r = true.
Proof.
  intros L. rewrite calculate_rate_cases.
  destruct (2 <=? List.length h)%nat eqn:L2; [|eexists; split; reflexivity].
  apply Nat.leb_le in L2. cbn [andb].
  destruct (fgt _ fzero) eqn:G; [|eexists; split; reflexivity].
  eexists. split; [reflexivity|].
  pose proof small_counts_finite as C. rewrite forallb_forall in C.
  specialize (C (List.length h - 1)).
  replace (Z.of_nat (List.length h - 1))
    with (Z.of_nat (List.length h) - 1)%Z in C by lia.
  assert (I : In (List.length h - 1) (seq 1 (maxlen - 1))).
  { apply in_seq. pose proof (eq_refl : maxlen = 50). lia. }
  specialize (C I).
  destruct (of_int (Z.of_nat (List.length h) - 1)) as [| | |[] m e];
    try discriminate C.
  now apply fdiv_nonneg.
Qed.

Section Display.
Variable clock : nat -> spec_float.

(** X6. For a history of at most 50 timestamps [calculate_rate] returns a
    number that is neither negative nor a NaN; so is the rate computed from
    the history of any session. *)
Theorem rate_never_negative :
  (forall h,
      List.length h <= maxlen ->
      exists r, calculate_rate h = Ok r /\ nonneg_number r = true)
  /\ (forall reachable events h p,
      let w := snd (run clock reachable events (mkWorld (new_client h p) 0 [])) in
      exists r, calculate_rate (rate_history (self w)) = Ok r
                /\ nonneg_number r = true).
Proof.
  split; [exact calculate_rate_nonneg|].
  intros reachable events h p w. apply calculate_rate_nonneg.
  subst w.
  destruct (run clock reachable events (mkWorld (new_client h p) 0 []))
    as [r w] eqn:RUN. cbn [snd].
  destruct (SessionFacts.run_cases clock _ _ _ _ _ _ RUN)
    as [(_ & _ & ->)|(_ & w3 & _ & [_ H] & C)]; [cbn; lia|].
  assert (L : List.length (rate_history (self w3)) <= maxlen)
    by (rewrite H; apply SessionFacts.lastn_length).
  destruct C as [(b & _ & ->)|(n & hz & secs & _ & _ & ->)]; exact L.
Qed.

(** X7. A line whose six tokens parse to six values is displayed whole:
    the message count goes up by one, the arrival time is appended to the
    history, and exactly eleven cells are overwritten in a fixed order, the
    first field (SLED current) at row 9, the third (SLED temperature) at row
    10, the sixth (TEC current) at row 11, the second (photo current) at row
    14, the fifth (SAG power) at row 15 and the fourth (target SAG power) at
    row 16.  When the history was empty, the rate shown is 0.0 and the
    status shown is Slow. *)
Theorem accepted_line_displayed (line : string)
    (sled photo temp target sag tec : spec_float) (w : world) :
  parse_values (split comma (strip line))
  = Some [sled; photo; temp; target; sag; tec] ->
  let c := with_rate_history
             (deque_append (rate_history (self w)) (clock (ticks w)))
             (with_data_count (S (data_count (self w))) (self w)) in
  exists rate,
    calculate_rate (rate_history c) = Ok rate
    /\ handle_line clock line w
       = (Ok tt,
          mkWorld c (S (ticks w))
            (out w ++ dashboard_cells c rate sled photo temp target sag tec))
    /\ (rate_history (self w) = [] -> rate = fzero /\ status_of rate = Slow).
Proof.
  intros P c.
  assert (A : accepted line
              = Some (combine data_keys [sled; photo; temp; target; sag; tec]))
    by (rewrite accepted_cases, P; reflexivity).
  subst c. cbn [rate_history with_rate_history].
  destruct (calculate_rate_ok
              (deque_append (rate_history (self w)) (clock (ticks w))))
    as [rate R].
  exists rate. split; [exact R|]. split.
  - rewrite handle_line_accepted, A. unfold update_display.
    do 4 step.
    cbn [rate_history with_rate_history with_data_count data_count host port].
    rewrite R.
    cbn [combine data_keys getitem String.eqb Ascii.eqb Bool.eqb].
    repeat step. unfold update_field, emit. cbn [self ticks out].
    rewrite <- !List.app_assoc. reflexivity.
  - intros E. rewrite E in R. cbn in R.
    assert (Z : rate = fzero) by congruence. subst rate.
    split; reflexivity.
Qed.

End Display.

Lemma rate_never_negative_witness :
  exists r,
    calculate_rate [of_int 1700000000; of_int 1700000004; of_int 1700000002]
    = Ok r
    /\ nonneg_number r = true.
Proof.
  apply (proj1 (rate_never_negative (fun _ => fzero))).
  unfold maxlen. simpl. lia.
Defined.

Lemma accepted_line_displayed_witness :
  exists rate,
    handle_line (fun n => of_int (Z.of_nat n)) " 1,2,3,4,5,6 "
      (streaming_start (fun n => of_int (Z.of_nat n)) "127.0.0.1" 65432)
    = (Ok tt,
       mkWorld
         (mkClient "127.0.0.1" 65432 true true 1 (Some (of_int 0)) [of_int 1]
                   true)
         2
         ([Connecting; ConnectedBanner; Frame]
          ++ dashboard_cells
               (mkClient "127.0.0.1" 65432 true true 1 (Some (of_int 0))
                         [of_int 1] true)
               rate (of_int 1) (of_int 2) (of_int 3) (of_int 4) (of_int 5)
               (of_int 6))).
Proof.
  destruct (accepted_line_displayed (fun n => of_int (Z.of_nat n))
              " 1,2,3,4,5,6 " (of_int 1) (of_int 2) (of_int 3) (of_int 4)
              (of_int 5) (of_int 6)
              (streaming_start (fun n => of_int (Z.of_nat n)) "127.0.0.1" 65432))
    as (rate & _ & H & _).
  - vm_compute. reflexivity.
  - exists rate. exact H.
Defined.

End DisplayFacts.

(* ================================================================== *)
(** * Further properties of the session *)
(* ================================================================== *)

Module RunFacts.
Import PyStr PyStrFacts PyNum Framing Client Invariants Coverage.
Import ParserFacts RateFacts LoopFacts SessionFacts.
Local Open Scope nat_scope.

Section Run.
Variable clock : nat -> spec_float.

Lemma run_from events w :
  run clock true events w =
  let (r, w') := stream clock events EmptyString (loop_entry clock w) in
  loop_exit clock r w'.
Proof.
  unfold run, loop_entry.
  cbv [connect bind modify_self emit ret time_time attempt init_display
       get_self negb].
  cbn [self ticks out display_initialized with_start_time with_running
       with_socket].
  rewrite <- !List.app_assoc. cbn [app].
  destruct (display_initialized (self w)).
  - destruct (stream clock events EmptyString _) as [[[b|]|e] w']; try reflexivity;
      destruct e; reflexivity.
  - cbn [self ticks out]. rewrite <- !List.app_assoc. cbn [app].
    destruct (stream clock events EmptyString _) as [[[b|]|e] w']; try reflexivity;
      destruct e; reflexivity.
Qed.

Lemma run_not_connected events w :
  run clock false events w
  = (Ok NotConnected,
     mkWorld (with_socket true (self w)) (ticks w)
             (out w ++ [Connecting; ConnectFailed])).
Proof.
  unfold run.
  cbv [connect bind modify_self emit ret negb]. cbn [self ticks out].
  now rewrite <- !List.app_assoc.
Qed.

Lemma run_ext events1 events2 :
  (forall buffer w, stream clock events1 buffer w = stream clock events2 buffer w) ->
  forall reachable w,
    run clock reachable events1 w = run clock reachable events2 w.
Proof.
  intros H [|] w.
  - now rewrite !run_from, H.
  - now rewrite !run_not_connected.
Qed.

(** ** The loop, event by event *)

Lemma stream_not_running events buffer w :
  running (self w) = false -> stream clock events buffer w = (Ok None, w).
Proof.
  intros R. destruct events as [|ev rest].
  - now rewrite stream_nil, R.
  - now rewrite stream_cons, R.
Qed.

Lemma stream_timeouts events buffer w :
  stream clock (without_timeouts events) buffer w
  = stream clock events buffer w.
Proof.
  revert buffer w. induction events as [|ev rest IH]; intros buffer w;
    [reflexivity|].
  destruct ev as [d| | |]; cbn [without_timeouts filter is_timeout negb];
    fold (without_timeouts rest).
  - rewrite !stream_cons. destruct (running (self w)); [|reflexivity].
    destruct (iteration clock (Data d) buffer w) as [[[b|]|e] w'];
      [apply IH|reflexivity|reflexivity].
  - rewrite IH, (stream_cons _ TimedOut), iteration_timeout.
    destruct (running (self w)) eqn:R; [reflexivity|].
    now apply stream_not_running.
  - rewrite !stream_cons. destruct (running (self w)); [|reflexivity].
    now rewrite iteration_failed.
  - rewrite !stream_cons. destruct (running (self w)); [|reflexivity].
    now rewrite iteration_interrupted.
Qed.

Lemma iteration_stops ev buffer w :
  keeps_streaming ev = false ->
  forall b, fst (iteration clock ev buffer w) <> Ok (Continue b).
Proof.
  destruct ev as [d| | |]; cbn [keeps_streaming]; intros K b;
    try discriminate K.
  - destruct d; [|discriminate K]. rewrite iteration_closed. discriminate.
  - rewrite iteration_failed. discriminate.
  - rewrite iteration_interrupted. discriminate.
Qed.

Lemma stream_terminal pre ev post buffer w :
  keeps_streaming ev = false ->
  stream clock (pre ++ ev :: post) buffer w
  = stream clock (pre ++ [ev]) buffer w.
Proof.
  intros K. revert buffer w. induction pre as [|e pre IH]; intros buffer w.
  - cbn [app]. rewrite !stream_cons. destruct (running (self w)); [|reflexivity].
    pose proof (iteration_stops ev buffer w K) as S.
    destruct (iteration clock ev buffer w) as [[[b|]|x] w'];
      [now destruct (S b)|reflexivity|reflexivity].
  - cbn [app]. rewrite !stream_cons. destruct (running (self w)); [|reflexivity].
    destruct (iteration clock e buffer w) as [[[b|]|x] w'];
      [apply IH|reflexivity|reflexivity].
Qed.

Lemma feed_keys events buffer :
  Forall (fun d => map fst d = data_keys) (fst (feed events buffer)).
Proof.
  revert buffer. induction events as [|ev rest IH]; intros buffer;
    [constructor|].
  destruct ev as [d| | |]; cbn [feed]; try apply IH.
  pose proof (parse_buffer_keys (S (String.length (buffer ++ d))) (buffer ++ d))
    as K.
  fold (records (buffer ++ d)) in K.
  destruct (records (buffer ++ d)) as [ds left].
  specialize (IH left). destruct (feed rest left) as [ds' left'].
  cbn [fst] in *. apply Forall_app. split; assumption.
Qed.

Lemma fold_shown_count ds w :
  Forall (fun d => map fst d = data_keys) ds ->
  data_count (self (fold_left (fun w d => shown clock d w) ds w))
  = data_count (self w) + List.length ds.
Proof.
  revert w. induction ds as [|d ds IH]; intros w F; cbn [fold_left List.length];
    [lia|].
  inversion F as [|? ? K Fs]; subst. rewrite (IH _ Fs).
  destruct (shown_spec clock d w K) as (_ & S & _). rewrite S.
  cbn [data_count with_rate_history with_data_count]. lia.
Qed.

(** Receives that keep the session going are the pure parser fed chunk
    after chunk, with one display per record. *)
Lemma stream_keeps pre rest buffer w :
  forallb keeps_streaming pre = true ->
  running (self w) = true ->
  stream clock (pre ++ rest) buffer w
  = stream clock rest (snd (feed pre buffer))
      (fold_left (fun w d => shown clock d w) (fst (feed pre buffer)) w).
Proof.
  revert buffer w. induction pre as [|ev pre IH]; intros buffer w K R;
    [reflexivity|].
  cbn [forallb] in K. apply andb_prop in K. destruct K as [K1 K2].
  cbn [app]. rewrite stream_cons, R.
  destruct ev as [d| | |]; cbn [keeps_streaming] in K1; try discriminate K1.
  - rewrite (iteration_data _ _ _ _ K1). cbn [feed].
    pose proof (parse_buffer_keys (S (String.length (buffer ++ d)))
                  (buffer ++ d)) as F.
    fold (records (buffer ++ d)) in F.
    destruct (records (buffer ++ d)) as [ds left]. cbn [fst snd] in *.
    destruct (fold_shown clock ds w F) as [S _].
    assert (R' : running
                   (self (fold_left (fun w d => shown clock d w) ds w)) = true).
    { destruct S as (_ & _ & _ & R' & _). congruence. }
    rewrite (IH left _ K2 R').
    destruct (feed pre left) as [ds' left']. cbn [fst snd].
    now rewrite fold_left_app.
  - rewrite iteration_timeout. cbn [feed]. now apply IH.
Qed.

(** X8. A receive that times out changes neither the buffer nor the client
    nor the display, and a session behaves the same with its timeouts left
    out. *)
Theorem timeouts_change_nothing (reachable : bool)
    (events : list recv_event) (buffer : string) (w : world) :
  iteration clock TimedOut buffer w = (Ok (Continue buffer), w)
  /\ stream clock (without_timeouts events) buffer w
     = stream clock events buffer w
  /\ run clock reachable (without_timeouts events) w
     = run clock reachable events w.
Proof.
  split; [reflexivity|]. split; [apply stream_timeouts|].
  apply run_ext. intros b w0. apply stream_timeouts.
Qed.

(** X9. After the first receive that ends the session (a zero-length
    read, a socket error or a keyboard interrupt) nothing more is read:
    whatever the socket would deliver afterwards does not change the result
    of [run]. *)
Theorem nothing_read_after_the_end (reachable : bool)
    (pre post : list recv_event) (ev : recv_event) (w : world) :
  keeps_streaming ev = false ->
  run clock reachable (pre ++ ev :: post) w
  = run clock reachable (pre ++ [ev]) w.
Proof.
  intros K. apply run_ext. intros b w0. now apply stream_terminal.
Qed.

(** X10. While every receive delivers data or times out, the session
    keeps streaming: [run] prints no summary, the buffer is what the pure
    parser leaves after the chunks are fed to it one by one, the records
    are displayed one by one in the order they are found, and the message
    count is the number of records found. *)
Theorem session_counts_records (events : list recv_event) (h : string) (p : Z) :
  forallb keeps_streaming events = true ->
  exists w,
    run clock true events (mkWorld (new_client h p) 0 [])
    = (Ok (StillStreaming (snd (feed events EmptyString))), w)
    /\ w = fold_left (fun w d => shown clock d w)
             (fst (feed events EmptyString)) (streaming_start clock h p)
    /\ data_count (self w) = List.length (fst (feed events EmptyString))
    /\ running (self w) = true
    /\ summaries (out w) = 0.
Proof.
  intros K. eexists. split; [|split; [reflexivity|]].
  - rewrite run_unfold.
    pose proof (stream_keeps events [] EmptyString (streaming_start clock h p)
                  K eq_refl) as S.
    rewrite app_nil_r in S. rewrite S, stream_nil.
    destruct (fold_shown clock (fst (feed events EmptyString))
                (streaming_start clock h p) (feed_keys _ _))
      as [(_ & _ & _ & R & _) _].
    rewrite R. reflexivity.
  - destruct (fold_shown clock (fst (feed events EmptyString))
                (streaming_start clock h p) (feed_keys _ _)) as [S _].
    split; [|split].
    + now rewrite fold_shown_count by apply feed_keys.
    + destruct S as (_ & _ & _ & R & _). exact R.
    + exact (summaries_streamed _ _ _ _ S).
Qed.

Lemma summary_values w t :
  start_time (self w) = Some t ->
  summary clock w
  = (Ok tt,
     mkWorld (with_socket false (with_running false (self w)))
             (S (S (ticks w)))
             (out w
              ++ [SummaryHeader; SummaryTotal (data_count (self w));
                  SummaryAverage
                    (fdiv (of_int (Z.of_nat (data_count (self w))))
                          (max_1 (fsub (clock (ticks w)) t)));
                  SummaryDuration (fsub (clock (S (ticks w))) t)])).
Proof.
  intros T. unfold summary. do 4 step. rewrite T. step.
  unfold truediv. rewrite max_1_nonzero. repeat step.
  unfold disconnect. repeat step. unfold modify_self. cbn [self ticks out].
  now rewrite <- !List.app_assoc.
Qed.

(** X11. Whichever way the session ends (zero-length read, socket error,
    keyboard interrupt), [run] shows the matching notice, prints the summary
    after all dashboard output, and stops the client with the socket
    released.  With n records displayed, the clock was read n + 3 times;
    the total printed is n, the average is n divided by the larger of 1 and
    the time from start to reading n + 1, and the duration is the time
    from start to reading n + 2. *)
Theorem every_end_prints_the_summary (pre post : list recv_event)
    (ev : recv_event) (h : string) (p : Z) :
  forallb keeps_streaming pre = true ->
  keeps_streaming ev = false ->
  let n := List.length (fst (feed pre EmptyString)) in
  exists w cells,
    run clock true (pre ++ ev :: post) (mkWorld (new_client h p) 0 [])
    = (Ok Terminated, w)
    /\ data_count (self w) = n
    /\ ticks w = n + 3
    /\ running (self w) = false
    /\ has_socket (self w) = false
    /\ forallb is_cell cells = true
    /\ out w
       = [Connecting; ConnectedBanner; Frame] ++ cells
         ++ [match ev with
             | Interrupted => StoppedByUser
             | Failed => Cell 18 16 (Status ErrorShown) 20
             | _ => Cell 18 16 (Status ServerDisconnected) 20
             end;
             SummaryHeader;
             SummaryTotal n;
             SummaryAverage
               (fdiv (of_int (Z.of_nat n))
                     (max_1 (fsub (clock (n + 1)) (clock 0))));
             SummaryDuration (fsub (clock (n + 2)) (clock 0))].
Proof.
  intros K E n.
  pose proof (stream_keeps pre (ev :: post) EmptyString
                (streaming_start clock h p) K eq_refl) as SK.
  set (w1 := fold_left (fun w d => shown clock d w)
               (fst (feed pre EmptyString)) (streaming_start clock h p)) in *.
  destruct (fold_shown clock (fst (feed pre EmptyString))
              (streaming_start clock h p) (feed_keys _ _)) as [ST HI].
  fold w1 in ST, HI.
  destruct (HI (streaming_start_history_ok clock h p)) as [TI _].
  pose proof (fold_shown_count (fst (feed pre EmptyString))
                (streaming_start clock h p) (feed_keys _ _)) as C.
  fold w1 in C. cbn [streaming_start self data_count] in C.
  fold n in C. cbn [Nat.add] in C. rewrite C in TI.
  pose proof ST as (_ & _ & _ & R & T & _ & _ & cells & O & CE).
  cbn [streaming_start self running start_time out] in R, T, O.
  rewrite run_unfold, SK, stream_cons, R.
  assert (F : forall notice,
             exists w,
               bind (summary clock) (fun _ => ret Terminated)
                    (mkWorld (self w1) (ticks w1) (out w1 ++ [notice]))
               = (Ok Terminated, w)
               /\ data_count (self w) = n
               /\ ticks w = n + 3
               /\ running (self w) = false
               /\ has_socket (self w) = false
               /\ out w
                  = [Connecting; ConnectedBanner; Frame] ++ cells
                    ++ [notice; SummaryHeader; SummaryTotal n;
                        SummaryAverage
                          (fdiv (of_int (Z.of_nat n))
                                (max_1 (fsub (clock (n + 1)) (clock 0))));
                        SummaryDuration (fsub (clock (n + 2)) (clock 0))]).
  { intros notice.
    pose proof (summary_values
                  (mkWorld (self w1) (ticks w1) (out w1 ++ [notice])) _ T)
      as Q.
    unfold bind. rewrite Q. cbn [self ticks out].
    eexists. split; [reflexivity|].
    cbn [self ticks out data_count running has_socket with_socket
         with_running].
    rewrite O, C, TI.
    replace (n + 1) with (S n) by lia. replace (n + 2) with (S (S n)) by lia.
    split; [reflexivity|]. split; [now rewrite (Nat.add_comm n 3)|].
    do 2 (split; [reflexivity|]).
    now rewrite <- !List.app_assoc. }
  destruct ev as [d| | |]; cbn [keeps_streaming] in E; try discriminate E.
  - destruct d; [|discriminate E]. rewrite iteration_closed.
    destruct (F (Cell 18 16 (Status ServerDisconnected) 20))
      as (w & Q & A).
    exists w, cells. cbv iota beta. rewrite Q. tauto.
  - rewrite iteration_failed.
    destruct (F (Cell 18 16 (Status ErrorShown) 20)) as (w & Q & A).
    exists w, cells. cbv iota beta. rewrite Q. tauto.
  - rewrite iteration_interrupted.
    destruct (F StoppedByUser) as (w & Q & A).
    exists w, cells. cbv iota beta. rewrite bind_emit, Q. tauto.
Qed.

(** X12. When the connection cannot be made, [run] returns at once from
    any state: it prints the two connection lines only, reads no clock,
    draws no frame, prints no summary, leaves [running] as it was, and
    leaves the socket object set ([disconnect] is not called). *)
Theorem failed_connection_returns_at_once (events : list recv_event)
    (w : world) :
  exists w',
    run clock false events w = (Ok NotConnected, w')
    /\ out w' = out w ++ [Connecting; ConnectFailed]
    /\ ticks w' = ticks w
    /\ has_socket (self w') = true
    /\ running (self w') = running (self w)
    /\ start_time (self w') = start_time (self w)
    /\ display_initialized (self w') = display_initialized (self w)
    /\ summaries (out w') = summaries (out w)
    /\ frames (out w') = frames (out w).
Proof.
  eexists. split; [apply run_not_connected|].
  cbn [self ticks out has_socket running start_time display_initialized
       with_socket].
  repeat (split; [reflexivity|]).
  split.
  - rewrite summaries_app. cbn. lia.
  - unfold frames. rewrite filter_app, length_app. cbn. lia.
Qed.

End Run.

Lemma nothing_read_after_the_end_witness :
  run (fun _ => fzero) true ([Data "1,2,3,4,5,6"] ++ Failed :: [Data "7"])
      (mkWorld (new_client "127.0.0.1" 65432) 0 [])
  = run (fun _ => fzero) true ([Data "1,2,3,4,5,6"] ++ [Failed])
      (mkWorld (new_client "127.0.0.1" 65432) 0 []).
Proof.
  apply (nothing_read_after_the_end (fun _ => fzero)). reflexivity.
Defined.

Lemma session_counts_records_witness :
  exists w,
    run (fun n => of_int (Z.of_nat n)) true
        [Data "1,2,3,4"; TimedOut; Data ",5,6,7,8,9,10,11,12,13"]
        (mkWorld (new_client "127.0.0.1" 65432) 0 [])
    = (Ok (StillStreaming "13"), w)
    /\ data_count (self w) = 2.
Proof.
  destruct (session_counts_records (fun n => of_int (Z.of_nat n))
              [Data "1,2,3,4"; TimedOut; Data ",5,6,7,8,9,10,11,12,13"]
              "127.0.0.1" 65432%Z eq_refl)
    as (w & RUN & _ & C & _).
  exists w. split; [exact RUN|]. rewrite C. vm_compute. reflexivity.
Defined.

Lemma every_end_prints_the_summary_witness :
  exists w,
    run (fun n => of_int (Z.of_nat n)) true
        ([Data "1,2,3,4,5,6"; TimedOut] ++ Interrupted :: [Data "7"])
        (mkWorld (new_client "127.0.0.1" 65432) 0 [])
    = (Ok Terminated, w)
    /\ data_count (self w) = 1.
Proof.
  destruct (every_end_prints_the_summary (fun n => of_int (Z.of_nat n))
              [Data "1,2,3,4,5,6"; TimedOut] [Data "7"] Interrupted
              "127.0.0.1" 65432%Z eq_refl eq_refl)
    as (w & cells & RUN & C & _).
  exists w. split; [exact RUN|]. rewrite C. vm_compute. reflexivity.
Defined.

End RunFacts.

(* ================================================================== *)
(** * Frame, history, command line and record lookup *)
(* ================================================================== *)

Module MoreFacts.
Import PyStr PyStrFacts PyNum Framing Client Invariants Coverage.
Import ParserFacts RateFacts LoopFacts SessionFacts.
Local Open Scope nat_scope.

Lemma frames_app o1 o2 : frames (o1 ++ o2) = frames o1 + frames o2.
Proof. unfold frames. now rewrite filter_app, length_app. Qed.

Lemma frames_cells cells : forallb is_cell cells = true -> frames cells = 0.
Proof.
  induction cells as [|o cells IH]; [reflexivity|].
  cbn [forallb]. intros H. apply andb_prop in H. destruct H as [H1 H2].
  destruct o; try discriminate H1. exact (IH H2).
Qed.

Lemma lastn_length_min {A : Type} k (l : list A) :
  List.length (lastn k l) = Nat.min (List.length l) k.
Proof. unfold lastn. rewrite length_skipn. lia. Qed.

Lemma arrivals_length clock n : List.length (arrivals clock n) = n.
Proof. unfold arrivals. now rewrite length_map, length_seq. Qed.

Section More.
Variable clock : nat -> spec_float.

(** X13. [init_display] draws the frame at most once: calling it twice is
    the same as calling it once.  A session on a fresh client draws the
    frame exactly once when it connects, right after the connection banner
    and before any record arrives, and never when it does not connect. *)
Theorem frame_drawn_once (reachable : bool) (events : list recv_event)
    (h : string) (p : Z) :
  (forall w, bind init_display (fun _ => init_display) w = init_display w)
  /\ frames (out (snd (run clock reachable events
                         (mkWorld (new_client h p) 0 []))))
     = (if reachable then 1 else 0)
  /\ (reachable = true ->
      exists rest,
        out (snd (run clock reachable events (mkWorld (new_client h p) 0 [])))
        = [Connecting; ConnectedBanner; Frame] ++ rest).
Proof.
  split; [|split].
  - intros w. unfold init_display, bind, get_self, ret, emit, modify_self.
    cbn [self ticks out].
    destruct (display_initialized (self w)) eqn:D; cbn [self ticks out];
      [now rewrite D|reflexivity].
  - destruct (run clock reachable events (mkWorld (new_client h p) 0 []))
      as [r w] eqn:RUN. cbn [snd].
    destruct (run_cases clock _ _ _ _ _ _ RUN)
      as [(-> & _ & ->)|(-> & w3 & S & _ & C)]; [reflexivity|].
    destruct S as (_ & _ & _ & _ & _ & _ & _ & cells & O & CE).
    cbn [streaming_start out] in O.
    destruct C as [(b & _ & ->)|(n & hz & secs & _ & N & ->)].
    + rewrite O, frames_app, (frames_cells _ CE). reflexivity.
    + cbn [out]. rewrite O, !frames_app, (frames_cells _ CE).
      destruct N as [-> | ->]; reflexivity.
  - intros ->.
    destruct (run clock true events (mkWorld (new_client h p) 0 []))
      as [r w] eqn:RUN. cbn [snd].
    destruct (run_cases clock _ _ _ _ _ _ RUN)
      as [(R & _)|(_ & w3 & S & _ & C)]; [discriminate R|].
    destruct S as (_ & _ & _ & _ & _ & _ & _ & cells & O & CE).
    cbn [streaming_start out] in O.
    destruct C as [(b & _ & ->)|(n & hz & secs & _ & N & ->)].
    + exists cells. exact O.
    + cbn [out]. rewrite O. eexists. rewrite <- List.app_assoc. reflexivity.
Qed.

(** X14. After any execution of a session on a fresh client the history
    holds min(message count, 50) timestamps; while at most 50 records were
    counted it holds the arrival time of every one of them, in order. *)
Theorem history_length (reachable : bool) (events : list recv_event)
    (h : string) (p : Z) :
  let w := snd (run clock reachable events (mkWorld (new_client h p) 0 [])) in
  List.length (rate_history (self w)) = Nat.min (data_count (self w)) maxlen
  /\ (data_count (self w) <= maxlen ->
      rate_history (self w) = arrivals clock (data_count (self w))).
Proof.
  intros w.
  assert (H : rate_history (self w)
              = lastn maxlen (arrivals clock (data_count (self w)))).
  { subst w.
    destruct (run clock reachable events (mkWorld (new_client h p) 0 []))
      as [r w] eqn:RUN. cbn [snd].
    destruct (run_cases clock _ _ _ _ _ _ RUN)
      as [(_ & _ & ->)|(_ & w3 & _ & [_ H] & C)]; [reflexivity|].
    destruct C as [(b & _ & ->)|(n & hz & secs & _ & _ & ->)]; exact H. }
  split.
  - now rewrite H, lastn_length_min, arrivals_length.
  - intros L. rewrite H. unfold lastn. rewrite arrivals_length.
    now replace (data_count (self w) - maxlen) with 0 by lia.
Qed.

(** X15. [main] looks at the program name, the host and the port only:
    command-line arguments after the third are ignored. *)
Theorem main_ignores_further_arguments (reachable : bool)
    (events : list recv_event) (argv : list string) :
  main clock (firstn 3 argv) reachable events
  = main clock argv reachable events.
Proof.
  destruct argv as [|a [|b [|c rest]]]; reflexivity.
Qed.

End More.

(** The theorem at a session of one record that ends by a zero-length
    read. *)
Lemma frame_drawn_once_witness :
  exists rest,
    out (snd (run (fun n => of_int (Z.of_nat n)) true
                [Data "1,2,3,4,5,6"; Data ""]
                (mkWorld (new_client "127.0.0.1" 65432) 0 [])))
    = [Connecting; ConnectedBanner; Frame] ++ rest.
Proof.
  apply (proj2 (proj2 (frame_drawn_once (fun n => of_int (Z.of_nat n)) true
                         [Data "1,2,3,4,5,6"; Data ""]
                         "127.0.0.1" 65432%Z))).
  reflexivity.
Defined.

(** The theorem at a session of two records that ends by a zero-length
    read. *)
Lemma history_length_witness :
  rate_history
    (self (snd (run (fun n => of_int (Z.of_nat n)) true
                  [Data "1,2,3,4,5,6,7,8,9,10,11,12"; Data ""]
                  (mkWorld (new_client "127.0.0.1" 65432) 0 []))))
  = arrivals (fun n => of_int (Z.of_nat n)) 2.
Proof.
  pose proof (history_length (fun n => of_int (Z.of_nat n)) true
                [Data "1,2,3,4,5,6,7,8,9,10,11,12"; Data ""]
                "127.0.0.1" 65432%Z) as H.
  cbv zeta in H. destruct H as [_ H].
  assert (C : data_count
                (self (snd (run (fun n => of_int (Z.of_nat n)) true
                              [Data "1,2,3,4,5,6,7,8,9,10,11,12"; Data ""]
                              (mkWorld (new_client "127.0.0.1" 65432) 0 []))))
              = 2) by (vm_compute; reflexivity).
  rewrite C in H. apply H. unfold maxlen. lia.
Defined.

(** X16. The six keys of a record are distinct, so the record made of six
    values returns each value under its own key, in the declared order, and
    a lookup of any other key raises [KeyError]. *)
Theorem record_lookup (sled photo temp target sag tec : spec_float) :
  let d := combine data_keys [sled; photo; temp; target; sag; tec] in
  NoDup data_keys
  /\ map (getitem d) data_keys
     = [Ok sled; Ok photo; Ok temp; Ok target; Ok sag; Ok tec]
  /\ (forall key, ~ In key data_keys -> getitem d key = Raise (KeyError key)).
Proof.
  intros d. split; [|split].
  - unfold data_keys.
    repeat (constructor;
            [cbn [In]; intros H;
             repeat (destruct H as [H|H]; [discriminate H|]); exact H|]).
    constructor.
  - reflexivity.
  - intros key N. subst d. cbn [combine data_keys getitem].
    cbn [data_keys In] in N.
    repeat (match goal with
            | |- context [String.eqb ?k key] =>
                destruct (String.eqb_spec k key) as [E|_];
                [exfalso; apply N; rewrite E; tauto|]
            end).
    reflexivity.
Qed.

(** The theorem at the record of the values 1 to 6 and a key in the wrong
    letter case. *)
Lemma record_lookup_witness :
  getitem (combine data_keys (map of_int [1; 2; 3; 4; 5; 6]%Z)) "SLED_Current"
  = Raise (KeyError "SLED_Current").
Proof.
  apply (proj2 (proj2 (record_lookup (of_int 1) (of_int 2) (of_int 3)
                         (of_int 4) (of_int 5) (of_int 6)))).
  cbn [data_keys In]. intros H.
  repeat (destruct H as [H|H]; [discriminate H|]). exact H.
Defined.

End MoreFacts.
